(** * depth2Cloud: depth images to coloured point clouds

    A shallow embedding of [depth2Cloud.py], with
    [quaternion_to_rotation_matrix] of [convert_K_format.py], and the
    properties its specification states about it.

    Numbers.  The script computes in binary64.  Here a float is an exact
    rational ([Q], compared with [==]); an unsigned 8 or 16 bit sample is
    an integer ([Z]).  Rounding is therefore absent from the model, and a
    division by zero on arrays, which numpy answers with inf or nan, is
    [Qdiv]'s 0: a theorem that states the value of a quotient carries the
    hypothesis that the divisor is not zero.  The division of two Python
    integers raises [ZeroDivisionError], as in the script.

    Objects.  The intrinsic matrix is a numpy array that
    [adjust_intrinsics_for_resolution] copies and then updates in place,
    so arrays of floats live in a store and are passed by reference.
    Images are only read and are passed as values.  What the script
    prints to the console is left out. *)

From Stdlib Require Import QArith Qabs ZArith String Ascii List Lia Lqa.
From Stdlib Require Import DecimalString DecimalZ.
From stdpp Require Import gmap strings list fin_maps.

Open Scope Q_scope.

(** ** Exceptions, the store and the monad of the script *)

Inductive exn : Type :=
  | ZeroDivisionError   (* int / int with a zero divisor *)
  | IndexError          (* index out of range, boolean mask of wrong length *)
  | ValueError          (* shapes that do not agree in vstack and dot *)
  | TypeError           (* a format string and its arguments disagree *)
  | Cv2Error            (* raised inside cv2.resize *)
  | DeadReference.      (* a reference to no array: no Python value is one *)

Inductive result (A : Type) : Type :=
  | Ok (a : A)
  | Raise (e : exn).
Arguments Ok {A} a.
Arguments Raise {A} e.

(** A 2-d array of floats, as its rows. *)
Abbreviation matrix := (list (list Q)).
Abbreviation loc := positive.

Record state : Type := mkState {
  arrays : gmap loc matrix;      (* the float arrays that are alive *)
  files : gmap string string     (* the files written so far *)
}.

Definition M (A : Type) : Type := state -> result A * state.

Definition ret {A} (a : A) : M A := fun s => (Ok a, s).
Definition raise {A} (e : exn) : M A := fun s => (Raise e, s).
Definition bind {A B} (m : M A) (k : A -> M B) : M B :=
  fun s => match m s with
           | (Ok a, s') => k a s'
           | (Raise e, s') => (Raise e, s')
           end.
Definition lift {A} (r : result A) : M A := fun s => (r, s).

Declare Scope py_scope.
Delimit Scope py_scope with py.
Notation "x <- m ;; k" := (bind m (fun x => k))
  (at level 100, m at next level, right associativity) : py_scope.
Notation "m ;;; k" := (bind m (fun _ => k))
  (at level 100, right associativity) : py_scope.
Open Scope py_scope.

(** ** numpy on the store *)

Module np.

Definition rectangular {A} (r c : nat) (m : list (list A)) : Prop :=
  length m = r /\ Forall (fun row => length row = c) m.

Definition getitem (m : matrix) (i j : nat) : option Q :=
  row ← m !! i; row !! j.

Definition setitem (m : matrix) (i j : nat) (x : Q) : matrix :=
  match m !! i with
  | Some row => <[i := <[j := x]> row]> m
  | None => m
  end.

(** [a.copy()]: a new array with the values of [a]. *)
Definition copy (a : loc) : M loc := fun s =>
  match arrays s !! a with
  | Some m =>
      let l := fresh (dom (arrays s)) in
      (Ok l, mkState (<[l := m]> (arrays s)) (files s))
  | None => (Raise DeadReference, s)
  end.

(** [a[i, j]] *)
Definition get (a : loc) (i j : nat) : M Q := fun s =>
  match arrays s !! a with
  | Some m =>
      match getitem m i j with
      | Some x => (Ok x, s)
      | None => (Raise IndexError, s)
      end
  | None => (Raise DeadReference, s)
  end.

(** [a[i, j] *= x], in place. *)
Definition imul (a : loc) (i j : nat) (x : Q) : M unit := fun s =>
  match arrays s !! a with
  | Some m =>
      match getitem m i j with
      | Some y =>
          (Ok tt, mkState (<[a := setitem m i j (y * x)]> (arrays s)) (files s))
      | None => (Raise IndexError, s)
      end
  | None => (Raise DeadReference, s)
  end.

End np.

(** [a / b] on two Python integers: true division, a float. *)
Definition truediv (a b : Z) : M Q :=
  if (b =? 0)%Z then raise ZeroDivisionError
  else ret (inject_Z a / inject_Z b).

(** ** adjust_intrinsics_for_resolution

    Sizes are (height, width) pairs of Python integers. *)
Definition adjust_intrinsics_for_resolution
    (K_original : loc) (original_size target_size : Z * Z) : M loc :=
  scale_x <- truediv (snd target_size) (snd original_size) ;;
  scale_y <- truediv (fst target_size) (fst original_size) ;;
  K_adjusted <- np.copy K_original ;;
  np.imul K_adjusted 0 0 scale_x ;;;
  np.imul K_adjusted 1 1 scale_y ;;;
  np.imul K_adjusted 0 2 scale_x ;;;
  np.imul K_adjusted 1 2 scale_y ;;;
  ret K_adjusted.

(** ** Images

    A decoded image: its first two dimensions and its pixels, row by row.
    A depth pixel is one unsigned 16 bit sample; a colour pixel holds
    three unsigned 8 bit samples in the order cv2 stores them. *)

Record image (A : Type) : Type := mkImage {
  height : nat;
  width : nat;
  pixels : list (list A)
}.
Arguments mkImage {A} height width pixels.
Arguments height {A} i.
Arguments width {A} i.
Arguments pixels {A} i.

Record sample : Type := mkSample { c0 : Z; c1 : Z; c2 : Z }.

(** [img.shape[:2]] *)
Definition shape2 {A} (img : image A) : nat * nat := (height img, width img).

(** The pixels are [height] rows of [width] entries. *)
Definition well_shaped {A} (img : image A) : Prop :=
  np.rectangular (height img) (width img) (pixels img).

(** [img[v][u]] *)
Definition pixel_at {A} (img : image A) (v u : nat) : option A :=
  row ← pixels img !! v; row !! u.

(** ** numpy on values *)

Definition Qltb (x y : Q) : bool := negb (Qle_bool y x).

Module npv.

(** [range(0, n)] *)
Definition range (n : nat) : list Z := map Z.of_nat (seq 0 n).

(** [np.meshgrid(u, v)]: two arrays of [len(v)] rows and [len(u)]
    columns, the first repeating [u] along each row, the second
    repeating [v] down each column. *)
Definition meshgrid {A} (u v : list A) : list (list A) * list (list A) :=
  (map (fun _ => u) v, map (fun y => map (fun _ => y) u) v).

(** [a.astype(float)] on integers *)
Definition astype_float (a : list (list Z)) : matrix :=
  map (map inject_Z) a.

(** [np.ravel]: the rows one after the other. *)
Definition ravel {A} (a : list (list A)) : list A := concat a.

(** An operation on two arrays of one shape, element by element. *)
Definition map2 (f : Q -> Q -> Q) (a b : matrix) : matrix :=
  zip_with (zip_with f) a b.

Fixpoint select {A} (valid : list bool) (xs : list A) : list A :=
  match valid, xs with
  | b :: valid', x :: xs' =>
      if b then x :: select valid' xs' else select valid' xs'
  | _, _ => []
  end.

(** [xs[valid]] for a boolean array [valid]: numpy raises IndexError
    when the two lengths differ. *)
Definition boolean_index {A} (xs : list A) (valid : list bool)
  : result (list A) :=
  if decide (length xs = length valid) then Ok (select valid xs)
  else Raise IndexError.

(** [np.ones(n)] *)
Definition ones (n : nat) : list Q := repeat 1 n.

(** [np.vstack]: the arguments become the rows of one array; they must
    have one length. *)
Definition vstack (rows : list (list Q)) : result matrix :=
  match rows with
  | [] => Raise ValueError
  | r :: rest =>
      if forallb (fun r' => length r' =? length r)%nat rest then Ok rows
      else Raise ValueError
  end.

Definition column (j : nat) (m : matrix) : list Q :=
  map (fun row => nth j row 0) m.

(** [np.transpose] of a 2-d array *)
Definition transpose (m : matrix) : matrix :=
  map (fun j => column j m) (seq 0 (length (hd [] m))).

Definition inner (r c : list Q) : Q :=
  fold_right Qplus 0 (zip_with Qmult r c).

(** [np.dot(a, b)] of two 2-d arrays: rows of [a] against columns of
    [b]; the row length of [a] must be the row count of [b]. *)
Definition dot (a b : matrix) : result matrix :=
  if forallb (fun row => length row =? length b)%nat a
  then Ok (map (fun row => map (inner row) (transpose b)) a)
  else Raise ValueError.

End npv.

(** ** depth_image_to_point_cloud *)

Section BackProjector.

(** [cv2.resize(src, (width, height), interpolation=cv2.INTER_LINEAR)]:
    the resampling is OpenCV's and is not modelled. *)
Variable cv2_resize : image sample -> nat * nat -> result (image sample).

Definition depth_image_to_point_cloud
    (rgb : image sample) (depth : image Z) (scale : Q) (K : loc)
    (pose : matrix) (rgb_size : option (Z * Z)) : M (list (list Q)) :=
  adjusted <-
    match rgb_size with
    | Some size =>
        if decide (shape2 rgb <> shape2 depth) then
          K_adjusted <- adjust_intrinsics_for_resolution K size
                          (Z.of_nat (height depth), Z.of_nat (width depth)) ;;
          rgb' <- lift (cv2_resize rgb (width depth, height depth)) ;;
          ret (K_adjusted, rgb')
        else ret (K, rgb)
    | None => ret (K, rgb)
    end ;;
  let K := fst adjusted in
  let rgb := snd adjusted in
  let u := npv.range (width depth) in
  let v := npv.range (height depth) in
  let uv := npv.meshgrid u v in
  let u := npv.astype_float (fst uv) in
  let v := npv.astype_float (snd uv) in
  let Z := map (map (fun d => inject_Z d / scale)) (pixels depth) in
  cx <- np.get K 0 2 ;;
  fx <- np.get K 0 0 ;;
  let X := npv.map2 (fun u z => (u - cx) * z / fx) u Z in
  cy <- np.get K 1 2 ;;
  fy <- np.get K 1 1 ;;
  let Y := npv.map2 (fun v z => (v - cy) * z / fy) v Z in
  let X := npv.ravel X in
  let Y := npv.ravel Y in
  let Z := npv.ravel Z in
  let valid := map (Qltb 0) Z in
  X <- lift (npv.boolean_index X valid) ;;
  Y <- lift (npv.boolean_index Y valid) ;;
  Z <- lift (npv.boolean_index Z valid) ;;
  position <- lift (npv.vstack [X; Y; Z; npv.ones (length X)]) ;;
  position <- lift (npv.dot pose position) ;;
  B <- lift (npv.boolean_index (npv.ravel (map (map c0) (pixels rgb))) valid) ;;
  G <- lift (npv.boolean_index (npv.ravel (map (map c1) (pixels rgb))) valid) ;;
  R <- lift (npv.boolean_index (npv.ravel (map (map c2) (pixels rgb))) valid) ;;
  stacked <- lift (npv.vstack (take 3 position ++
                     [map inject_Z R; map inject_Z G; map inject_Z B])) ;;
  ret (npv.transpose stacked).

End BackProjector.

(** ** Formatting with [%]

    ["%d"] prints an integer in decimal, truncating a float towards zero
    first; ["%f"] prints six digits after the point, rounding to nearest
    with ties to even; ["%s"] inserts a string. *)

Definition LF : string := String "010" "".

Inductive fmt_arg : Type :=
  | AFloat (q : Q)
  | AInt (z : Z)
  | AStr (s : string).

Definition str_int (z : Z) : string := NilZero.string_of_int (Z.to_int z).

(** [int(x)] of a float *)
Definition trunc (q : Q) : Z := (Qnum q ÷ Z.pos (Qden q))%Z.

Definition round_half_even (q : Q) : Z :=
  let n := Qnum q in
  let d := Z.pos (Qden q) in
  let fl := (n / d)%Z in
  let r2 := (2 * (n mod d))%Z in
  if (r2 <? d)%Z then fl
  else if (d <? r2)%Z then (fl + 1)%Z
  else if Z.even fl then fl else (fl + 1)%Z.

Definition digit (n : Z) : ascii := ascii_of_nat (48 + Z.to_nat (n mod 10)).

Definition digits6 (n : Z) : string :=
  String (digit (n / 100000)) (String (digit (n / 10000))
  (String (digit (n / 1000)) (String (digit (n / 100))
  (String (digit (n / 10)) (String (digit n) ""))))).

Definition format_f (q : Q) : string :=
  let n := round_half_even (Qabs q * 1000000) in
  (if Qltb q 0 then "-" else "") +:+
  str_int (n / 1000000) +:+ "." +:+ digits6 (n mod 1000000).

Definition format_d (q : Q) : string := str_int (trunc q).

Definition conversion (c : ascii) (a : fmt_arg) : result string :=
  if (c =? "d")%char then
    match a with
    | AFloat q => Ok (format_d q)
    | AInt z => Ok (str_int z)
    | AStr _ => Raise TypeError
    end
  else if (c =? "f")%char then
    match a with
    | AFloat q => Ok (format_f q)
    | AInt z => Ok (format_f (inject_Z z))
    | AStr _ => Raise TypeError
    end
  else if (c =? "s")%char then
    match a with
    | AFloat q => Ok (format_f q)   (* Python prints repr(q); the script never does this *)
    | AInt z => Ok (str_int z)
    | AStr s => Ok s
    end
  else Raise ValueError.

(** [fmt % args] *)
Fixpoint py_format (fmt : string) (args : list fmt_arg) : result string :=
  match fmt with
  | EmptyString =>
      match args with
      | [] => Ok EmptyString
      | _ :: _ => Raise TypeError
      end
  | String ch rest =>
      if (ch =? "%")%char then
        match rest with
        | String c rest' =>
            match args with
            | a :: args' =>
                match conversion c a with
                | Ok s =>
                    match py_format rest' args' with
                    | Ok t => Ok (s +:+ t)
                    | Raise e => Raise e
                    end
                | Raise e => Raise e
                end
            | [] => Raise TypeError
            end
        | EmptyString => Raise ValueError
        end
      else
        match py_format rest args with
        | Ok t => Ok (String ch t)
        | Raise e => Raise e
        end
  end.

(** ** write_point_cloud *)

(** [point[i]] *)
Definition item (point : list Q) (i : nat) : M Q :=
  match point !! i with
  | Some x => ret x
  | None => raise IndexError
  end.

Definition point_format : string := "%f %f %f %d %d %d 0" +:+ LF.

Definition ply_template : string :=
  "ply" +:+ LF +:+
  "    format ascii 1.0" +:+ LF +:+
  "    element vertex %d" +:+ LF +:+
  "    property float x" +:+ LF +:+
  "    property float y" +:+ LF +:+
  "    property float z" +:+ LF +:+
  "    property uchar blue" +:+ LF +:+
  "    property uchar green" +:+ LF +:+
  "    property uchar red" +:+ LF +:+
  "    property uchar alpha" +:+ LF +:+
  "    end_header" +:+ LF +:+
  "    %s" +:+ LF +:+
  "    ".

(** The loop over [points], appending to [formatted_points]. *)
Fixpoint format_loop (points : list (list Q)) (formatted_points : list string)
  : M (list string) :=
  match points with
  | [] => ret formatted_points
  | point :: rest =>
      p0 <- item point 0 ;;
      p1 <- item point 1 ;;
      p2 <- item point 2 ;;
      p3 <- item point 3 ;;
      p4 <- item point 4 ;;
      p5 <- item point 5 ;;
      line <- lift (py_format point_format
                [AFloat p0; AFloat p1; AFloat p2; AFloat p3; AFloat p4; AFloat p5]) ;;
      format_loop rest (formatted_points ++ [line])
  end.

(** [open(name, "w")] empties the file; [write] appends to it. *)
Definition file_open_w (name : string) : M unit := fun s =>
  (Ok tt, mkState (arrays s) (<[name := EmptyString]> (files s))).

Definition file_write (name : string) (text : string) : M unit := fun s =>
  (Ok tt, mkState (arrays s)
            (<[name := default EmptyString (files s !! name) +:+ text]> (files s))).

Definition write_point_cloud (ply_filename : string) (points : list (list Q))
  : M unit :=
  formatted_points <- format_loop points [] ;;
  file_open_w ply_filename ;;;
  text <- lift (py_format ply_template
            [AInt (Z.of_nat (length points));
             AStr (String.concat "" formatted_points)]) ;;
  file_write ply_filename text.

(** ** The kernel pixel by pixel

    The specification words the back-projector as a scan of the grid,
    one pixel after the other.  [project] is that scan; the theorems
    below compare it with the array program above. *)

(** The pixels (u, v) of a grid of [h] rows and [w] columns: row 0 from
    left to right, then row 1, and so on. *)
Definition row_major (h w : nat) : list (nat * nat) :=
  flat_map (fun v => map (fun u => (u, v)) (seq 0 w)) (seq 0 h).

Section PerPixel.

Variables (rgb : image sample) (depth : image Z) (scale : Q).
Variables (Km pose : matrix).

Definition intrinsic (i j : nat) : Q := default 0 (np.getitem Km i j).

(** Real depth of the pixel: [Z = d / scaleFactor]. *)
Definition real_depth (p : nat * nat) : Q :=
  inject_Z (default 0%Z (pixel_at depth (snd p) (fst p))) / scale.

(** The filter: a pixel with [Z <= 0] is discarded. *)
Definition survives (p : nat * nat) : bool := Qltb 0 (real_depth p).

(** [(X, Y, Z, 1)] *)
Definition back_project (p : nat * nat) : list Q :=
  [ (inject_Z (Z.of_nat (fst p)) - intrinsic 0 2) * real_depth p / intrinsic 0 0;
    (inject_Z (Z.of_nat (snd p)) - intrinsic 1 2) * real_depth p / intrinsic 1 1;
    real_depth p;
    1 ].

(** The colour of the pixel, red first. *)
Definition colour (p : nat * nat) : list Q :=
  let c := default (mkSample 0 0 0) (pixel_at rgb (snd p) (fst p)) in
  [inject_Z (c2 c); inject_Z (c1 c); inject_Z (c0 c)].

(** The first three components of [pose . (X, Y, Z, 1)], then the
    colour. *)
Definition project_pixel (p : nat * nat) : list Q :=
  map (fun row => npv.inner row (back_project p)) (take 3 pose) ++ colour p.

Definition survivors : list (nat * nat) :=
  List.filter survives (row_major (height depth) (width depth)).

Definition project : list (list Q) := map project_pixel survivors.

End PerPixel.

(** What [adjust_intrinsics_for_resolution] leaves in the copy: the four
    entries multiplied one after the other, in the order of the script. *)
Definition adjusted (m : matrix) (sx sy : Q) : matrix :=
  np.setitem (np.setitem (np.setitem (np.setitem m 0 0
    (default 0 (np.getitem m 0 0) * sx)) 1 1
    (default 0 (np.getitem m 1 1) * sy)) 0 2
    (default 0 (np.getitem m 0 2) * sx)) 1 2
    (default 0 (np.getitem m 1 2) * sy).

(** The number of pixels whose stored depth is strictly positive. *)
Definition positive_depths (depth : image Z) : nat :=
  length (List.filter (fun d => 0 <? d)%Z (concat (pixels depth))).

Definition identity4 : matrix :=
  [[1; 0; 0; 0]; [0; 1; 0; 0]; [0; 0; 1; 0]; [0; 0; 0; 1]].

(** Two arrays with entries equal as rationals. *)
Definition matrix_eq (a b : matrix) : Prop := Forall2 (Forall2 Qeq) a b.

(** What it takes for a call of the back-projector to be on a frame:
    both images are arrays of the same grid, [K] is a live 3 x 3 array
    and [pose] is 4 x 4. *)
Record frame (s : state) (rgb : image sample) (depth : image Z)
    (K : loc) (Km pose : matrix) : Prop := mkFrame {
  frame_rgb : well_shaped rgb;
  frame_depth : well_shaped depth;
  frame_grid : shape2 rgb = shape2 depth;
  frame_K : arrays s !! K = Some Km;
  frame_K33 : np.rectangular 3 3 Km;
  frame_pose : np.rectangular 4 4 pose
}.

(** ** Reading the written file back *)

(** [s.split(sep)] for a separator of one character *)
Fixpoint split (sep : ascii) (s : string) : list string :=
  match s with
  | EmptyString => [EmptyString]
  | String ch rest =>
      if (ch =? sep)%char then EmptyString :: split sep rest
      else match split sep rest with
           | piece :: pieces => String ch piece :: pieces
           | [] => [String ch EmptyString]
           end
  end.

(** [s.lstrip(" ")] *)
Fixpoint lstrip (s : string) : string :=
  match s with
  | String ch rest => if (ch =? " ")%char then lstrip rest else s
  | EmptyString => EmptyString
  end.

Definition nonempty (s : string) : bool :=
  match s with EmptyString => false | String _ _ => true end.

(** The lines of a text without their indentation, blank lines left
    out. *)
Definition content_lines (text : string) : list string :=
  List.filter nonempty (map lstrip (split "010" text)).

Definition fields (line : string) : list string := split " " line.

Definition int_str (s : string) : option Z :=
  Z.of_int <$> NilZero.int_of_string s.

(** The header of a file of [n] points, line by line. *)
Definition header_lines (n : nat) : list string :=
  [ "ply"; "format ascii 1.0"; "element vertex " +:+ str_int (Z.of_nat n);
    "property float x"; "property float y"; "property float z";
    "property uchar blue"; "property uchar green"; "property uchar red";
    "property uchar alpha"; "end_header" ].

(** The properties a header declares, in its order: type and name. *)
Definition declared_properties (header : list string)
  : list (string * string) :=
  flat_map (fun line =>
    match fields line with
    | [kw; type; name] =>
        if String.eqb kw "property" then [(type, name)] else []
    | _ => []
    end) header.

(** The line of a point: six values, then the alpha 0. *)
Definition point_fields (point : list Q) : list string :=
  [ format_f (nth 0 point 0); format_f (nth 1 point 0); format_f (nth 2 point 0);
    format_d (nth 3 point 0); format_d (nth 4 point 0); format_d (nth 5 point 0);
    "0" ].

Definition point_line (point : list Q) : string :=
  String.concat " " (point_fields point).

(** ** Predicates and tables used by the proofs *)

(** A computation that writes to no file and to no array other than
    [a], which it keeps alive. *)
Definition writes_only {A} (a : loc) (m : M A) : Prop :=
  forall s, files (snd (m s)) = files s /\
            (forall l, l <> a -> arrays (snd (m s)) !! l = arrays s !! l) /\
            (is_Some (arrays s !! a) -> is_Some (arrays (snd (m s)) !! a)).

(** A computation that can return nothing but [v]. *)
Definition returns {A} (v : A) (m : M A) : Prop :=
  forall s x, fst (m s) = Ok x -> x = v.

(** The array of [h] rows and [w] columns whose entry in row [v] and
    column [u] is [f u v]. *)
Definition tabulate {A} (h w : nat) (f : nat -> nat -> A) : list (list A) :=
  map (fun v => map (fun u => f u v) (seq 0 w)) (seq 0 h).

(** A string with no space and no line feed in it. *)
Fixpoint clean (s : string) : Prop :=
  match s with
  | EmptyString => True
  | String ch rest => ch <> " "%char /\ ch <> "010"%char /\ clean rest
  end.

(** A string in which the character [sep] does not occur. *)
Fixpoint free_of (sep : ascii) (s : string) : Prop :=
  match s with
  | EmptyString => True
  | String ch rest => ch <> sep /\ free_of sep rest
  end.

(** Lines, each followed by a line feed, in one string. *)
Definition unlines (ls : list string) : string :=
  String.concat "" (map (fun l => l +:+ LF) ls).

(** The head of the written file up to [end_header], as the lines of the
    template with their indentation. *)
Definition raw_header (n : nat) : list string :=
  [ "ply"; "    format ascii 1.0";
    "    element vertex " +:+ str_int (Z.of_nat n);
    "    property float x"; "    property float y"; "    property float z";
    "    property uchar blue"; "    property uchar green";
    "    property uchar red"; "    property uchar alpha"; "    end_header" ].

(** ** Sample data *)

Module Sample.

Definition K0 : matrix := [[525; 0; 320]; [0; 520; 240]; [0; 0; 1]].

Definition store : state := mkState {[ 1%positive := K0 ]} ∅.

Definition white : sample := mkSample 255 255 255.

(** A pixel stored as blue 10, green 20, red 30. *)
Definition bgr : sample := mkSample 10 20 30.

Definition rgb22 : image sample :=
  mkImage 2 2 [[white; bgr]; [white; white]].

Definition depth22 : image Z :=
  mkImage 2 2 [[0; 1000]; [2000; 0]]%Z.

Definition rgb12 : image sample := mkImage 1 2 [[white; bgr]].

Definition depth21 : image Z := mkImage 2 1 [[1000]; [2000]]%Z.

(** A depth image without a measurement. *)
Definition dark22 : image Z := mkImage 2 2 [[0; 0]; [0; 0]]%Z.

Definition rgb21 : image sample := mkImage 2 1 [[white]; [white]].

(** A stand-in for [cv2.resize] that samples the nearest source pixel
    to the top left. *)
Definition resize_nearest (src : image sample) (dsize : nat * nat)
  : result (image sample) :=
  let w := fst dsize in
  let h := snd dsize in
  if ((height src =? 0) || (width src =? 0) || (w =? 0) || (h =? 0))%nat
  then Raise Cv2Error
  else Ok (mkImage h w
        (map (fun v => map (fun u =>
           default white
             (pixel_at src (v * height src / h) (u * width src / w)))
           (seq 0 w)) (seq 0 h))).

Definition no_resize (src : image sample) (dsize : nat * nat)
  : result (image sample) := Raise Cv2Error.

Definition cloud : list (list Q) :=
  [[1; 0; 1; 255; 255; 255]; [0; 2; 2; 30; 20; 10]].

(** A dataset of two frames: what K.txt holds, the image files, what
    decoding any of them gives, and the path of a cloud. *)
Definition K_txt : list Q := [525; 0; 320; 0; 520; 240; 0; 0; 1].

Definition images : list string := ["000000.png"; "000001.png"]%string.

Definition decoded_rgb (file : string) : image sample := rgb22.

Definition decoded_depth (file : string) : image Z := depth22.

Definition cloud_path (file : string) : string := file +:+ ".ply".

End Sample.

(** An unsigned 8 bit value. *)
Definition uint8 (z : Z) : Prop := (0 <= z <= 255)%Z.

Definition uint8_sample (c : sample) : Prop :=
  uint8 (c0 c) /\ uint8 (c1 c) /\ uint8 (c2 c).

(** ** quaternion_to_rotation_matrix (convert_K_format.py)

    [np.sqrt] is numpy's; an exact root exists for few rationals, so the
    theorems assume of it only that its value at the squared norm of the
    quaternion at hand is a root of that number. *)

Section Quaternion.

Variable np_sqrt : Q -> Q.

Definition quaternion_to_rotation_matrix (qx qy qz qw : Q) : matrix :=
  let norm := np_sqrt (qx * qx + qy * qy + qz * qz + qw * qw) in
  let qx' := qx / norm in
  let qy' := qy / norm in
  let qz' := qz / norm in
  let qw' := qw / norm in
  let qx := qx' in
  let qy := qy' in
  let qz := qz' in
  let qw := qw' in
  [ [1 - 2 * qy * qy - 2 * qz * qz; 2 * qx * qy - 2 * qz * qw; 2 * qx * qz + 2 * qy * qw];
    [2 * qx * qy + 2 * qz * qw; 1 - 2 * qx * qx - 2 * qz * qz; 2 * qy * qz - 2 * qx * qw];
    [2 * qx * qz - 2 * qy * qw; 2 * qy * qz + 2 * qx * qw; 1 - 2 * qx * qx - 2 * qy * qy] ].

End Quaternion.

Definition identity3 : matrix := [[1; 0; 0]; [0; 1; 0]; [0; 0; 1]].

(** The determinant of a 3 x 3 matrix, 0 on another shape. *)
Definition det3 (m : matrix) : Q :=
  match m with
  | [[a; b; c]; [d; e; f]; [g; h; i]] =>
      a * (e * i - f * h) - b * (d * i - f * g) + c * (d * h - e * g)
  | _ => 0
  end.

(** A root for the squares of rationals, by the integer roots of
    numerator and denominator. *)
Definition sqrt_of_square (q : Q) : Q :=
  Z.sqrt (Qnum q) # Pos.sqrt (Qden q).

(** The rotation of a quaternion written without a root: every entry is
    a quotient by the squared norm. *)
Definition rotation_by_norm (qx qy qz qw : Q) : matrix :=
  let n := qx * qx + qy * qy + qz * qz + qw * qw in
  [ [1 - 2 * (qy * qy + qz * qz) / n; 2 * (qx * qy - qz * qw) / n; 2 * (qx * qz + qy * qw) / n];
    [2 * (qx * qy + qz * qw) / n; 1 - 2 * (qx * qx + qz * qz) / n; 2 * (qy * qz - qx * qw) / n];
    [2 * (qx * qz - qy * qw) / n; 2 * (qy * qz + qx * qw) / n; 1 - 2 * (qx * qx + qy * qy) / n] ].

(** ** build_point_cloud

    The files of the dataset are read by numpy, glob and cv2; here their
    answers are given: the numbers [np.fromfile] returns for K.txt and
    poses.txt, the two sorted lists of file names, the image [cv2.imread]
    decodes from a file (every file is taken to be readable) and the path
    [os.path] makes for the point cloud of an image file.  Directories
    and the progress bar are left out. *)

(** [a[i]] on a list or on the first axis of an array *)
Definition index {A} (l : list A) (i : nat) : M A :=
  match l !! i with
  | Some x => ret x
  | None => raise IndexError
  end.

(** [n] rows of [c] values cut from a flat array. *)
Fixpoint chunks {A} (c n : nat) (flat : list A) : list (list A) :=
  match n with
  | O => []
  | S n' => take c flat :: chunks c n' (drop c flat)
  end.

(** [np.reshape(a, (3, 3))] *)
Definition reshape33 (flat : list Q) : result matrix :=
  if decide (length flat = 9%nat) then Ok (chunks 3 3 flat)
  else Raise ValueError.

(** [np.reshape(a, (-1, 4, 4))] *)
Definition reshape_poses (flat : list Q) : result (list matrix) :=
  if decide (length flat mod 16 = 0)%nat
  then Ok (map (chunks 4 4) (chunks 16 (length flat / 16) flat))
  else Raise ValueError.

(** A new array with the given values. *)
Definition new_array (m : matrix) : M loc := fun s =>
  let l := fresh (dom (arrays s)) in
  (Ok l, mkState (<[l := m]> (arrays s)) (files s)).

Section BuildPointCloud.

Variable cv2_resize : image sample -> nat * nat -> result (image sample).
Variables (K_txt poses_txt : list Q).
Variables (image_files depth_files : list string).
Variable imread : string -> image sample.
Variable imread_depth : string -> image Z.
Variable ply_path : string -> string.

(** The loop over the frames; [poses] is the array of poses, or the one
    identity when the clouds stay in camera coordinates. *)
Fixpoint frames_loop (indices : list nat) (scale : Q) (K : loc)
    (poses : list matrix + matrix) (rgb_original_size : Z * Z) : M unit :=
  match indices with
  | [] => ret tt
  | i :: rest =>
      image_file <- index image_files i ;;
      depth_file <- index depth_files i ;;
      let rgb := imread image_file in
      let depth := imread_depth depth_file in
      pose <- match poses with
              | inl world => index world i
              | inr eye => ret eye
              end ;;
      current_points_3D <-
        depth_image_to_point_cloud cv2_resize rgb depth scale K pose
          (Some rgb_original_size) ;;
      write_point_cloud (ply_path image_file) current_points_3D ;;;
      frames_loop rest scale K poses rgb_original_size
  end.

Definition build_point_cloud (scale : Q) (view_ply_in_world_coordinate : bool)
  : M unit :=
  Km <- lift (reshape33 K_txt) ;;
  K <- new_array Km ;;
  poses <- (if view_ply_in_world_coordinate
            then world <- lift (reshape_poses poses_txt) ;; ret (inl world)
            else ret (inr identity4)) ;;
  first_file <- index image_files 0 ;;
  let first_rgb := imread first_file in
  let rgb_original_size :=
    (Z.of_nat (height first_rgb), Z.of_nat (width first_rgb)) in
  frames_loop (seq 0 (length image_files)) scale K poses rgb_original_size.

End BuildPointCloud.

(** The text [write_point_cloud] leaves for a list of points. *)
Definition ply_text (points : list (list Q)) : string :=
  unlines (raw_header (length points)) +:+ "    " +:+
  unlines (map point_line points) +:+ LF +:+ "    ".

(** What the loop of [build_point_cloud] meets at frame [i]. *)
Section Frames.

Variables (image_files depth_files : list string).
Variable imread : string -> image sample.
Variable imread_depth : string -> image Z.
Variable ply_path : string -> string.
Variables (scale : Q) (Km : matrix) (poses : list matrix + matrix).

Definition frame_rgb_image (i : nat) : image sample :=
  imread (default EmptyString (image_files !! i)).

Definition frame_depth_image (i : nat) : image Z :=
  imread_depth (default EmptyString (depth_files !! i)).

Definition frame_pose_matrix (i : nat) : matrix :=
  match poses with
  | inl world => default [] (world !! i)
  | inr eye => eye
  end.

Definition frame_file (i : nat) : string :=
  ply_path (default EmptyString (image_files !! i)).

(** The points of frame [i], computed with the intrinsics [Km]. *)
Definition frame_cloud (i : nat) : list (list Q) :=
  project (frame_rgb_image i) (frame_depth_image i) scale Km
    (frame_pose_matrix i).

(** Frame [i] has its two files and its pose, and its two images are
    arrays on one grid. *)
Definition frame_ready (i : nat) : Prop :=
  is_Some (image_files !! i) /\ is_Some (depth_files !! i) /\
  match poses with
  | inl world => is_Some (world !! i)
  | inr _ => True
  end /\
  np.rectangular 4 4 (frame_pose_matrix i) /\
  well_shaped (frame_rgb_image i) /\
  well_shaped (frame_depth_image i) /\
  shape2 (frame_rgb_image i) = shape2 (frame_depth_image i).

(** The files after the frames [indices] have been written, in order. *)
Definition files_after (indices : list nat) (fs : gmap string string)
  : gmap string string :=
  fold_left (fun fs i => <[frame_file i := ply_text (frame_cloud i)]> fs)
    indices fs.

End Frames.

(** The poses the loop uses: the array read from poses.txt for world
    coordinates, the identity for camera coordinates. *)
Definition read_poses (poses_txt : list Q) (view_ply_in_world_coordinate : bool)
  : result (list matrix + matrix) :=
  if view_ply_in_world_coordinate then
    match reshape_poses poses_txt with
    | Ok world => Ok (inl world)
    | Raise e => Raise e
    end
  else Ok (inr identity4).

(** * Properties *)

(** ** Running the monad *)

Lemma bind_ok {A B} (m : M A) (k : A -> M B) s a s' :
  m s = (Ok a, s') -> bind m k s = k a s'.
Proof. intros E. unfold bind. now rewrite E. Qed.

Lemma bind_raise {A B} (m : M A) (k : A -> M B) s e s' :
  m s = (Raise e, s') -> bind m k s = (Raise e, s').
Proof. intros E. unfold bind. now rewrite E. Qed.

Lemma truediv_run a b s :
  b <> 0%Z -> truediv a b s = (Ok (inject_Z a / inject_Z b), s).
Proof.
  intros Hb. unfold truediv. destruct (Z.eqb_spec b 0); [contradiction | reflexivity].
Qed.

Lemma copy_run a m s :
  arrays s !! a = Some m ->
  np.copy a s =
    (Ok (fresh (dom (arrays s))),
     mkState (<[fresh (dom (arrays s)) := m]> (arrays s)) (files s)).
Proof. intros E. unfold np.copy. now rewrite E. Qed.

Lemma imul_run a m i j y x s :
  arrays s !! a = Some m -> np.getitem m i j = Some y ->
  np.imul a i j x s =
    (Ok tt, mkState (<[a := np.setitem m i j (y * x)]> (arrays s)) (files s)).
Proof. intros E G. unfold np.imul. now rewrite E, G. Qed.

Lemma get_run a m i j x s :
  arrays s !! a = Some m -> np.getitem m i j = Some x ->
  np.get a i j s = (Ok x, s).
Proof. intros E G. unfold np.get. now rewrite E, G. Qed.

Lemma fresh_loc_dead (h : gmap loc matrix) : h !! fresh (dom h) = None.
Proof. apply not_elem_of_dom, is_fresh. Qed.

Lemma rectangular33 (m : matrix) :
  np.rectangular 3 3 m ->
  exists a b c d e f g h i, m = [[a; b; c]; [d; e; f]; [g; h; i]].
Proof.
  intros [Hl Hr].
  destruct m as [|r0 [|r1 [|r2 [|? ?]]]]; try discriminate.
  inversion Hr as [|? ? H0 Hr1]; subst.
  inversion Hr1 as [|? ? H1 Hr2]; subst.
  inversion Hr2 as [|? ? H2 _]; subst.
  destruct r0 as [|a [|b [|c [|? ?]]]]; try discriminate.
  destruct r1 as [|d [|e [|f [|? ?]]]]; try discriminate.
  destruct r2 as [|g [|h [|i [|? ?]]]]; try discriminate.
  eauto 10.
Qed.

(** Name the nine entries of a 3 x 3 matrix. *)
Ltac entries33 H :=
  let a := fresh "k00" in let b := fresh "k01" in let c := fresh "k02" in
  let d := fresh "k10" in let e := fresh "k11" in let f := fresh "k12" in
  let g := fresh "k20" in let h := fresh "k21" in let i := fresh "k22" in
  destruct (rectangular33 _ H) as (a & b & c & d & e & f & g & h & i & ->).

Lemma adjust_run K Km H0 W0 H1 W1 s :
  arrays s !! K = Some Km -> np.rectangular 3 3 Km ->
  H0 <> 0%Z -> W0 <> 0%Z ->
  adjust_intrinsics_for_resolution K (H0, W0) (H1, W1) s =
    (Ok (fresh (dom (arrays s))),
     mkState (<[fresh (dom (arrays s)) :=
                adjusted Km (inject_Z W1 / inject_Z W0) (inject_Z H1 / inject_Z H0)]>
              (arrays s)) (files s)).
Proof.
  intros HK H33 HH HW.
  entries33 H33.
  unfold adjust_intrinsics_for_resolution. cbn [fst snd].
  rewrite (bind_ok _ _ _ _ _ (truediv_run W1 W0 s HW)).
  rewrite (bind_ok _ _ _ _ _ (truediv_run H1 H0 s HH)).
  rewrite (bind_ok _ _ _ _ _ (copy_run _ _ _ HK)).
  set (l := fresh (dom (arrays s))).
  erewrite bind_ok; cycle 1.
  { eapply imul_run; cbn [arrays]; [apply lookup_insert_eq | reflexivity]. }
  erewrite bind_ok; cycle 1.
  { eapply imul_run; cbn [arrays]; [apply lookup_insert_eq | reflexivity]. }
  erewrite bind_ok; cycle 1.
  { eapply imul_run; cbn [arrays]; [apply lookup_insert_eq | reflexivity]. }
  erewrite bind_ok; cycle 1.
  { eapply imul_run; cbn [arrays]; [apply lookup_insert_eq | reflexivity]. }
  unfold ret. cbn [arrays files]. rewrite !insert_insert_eq. reflexivity.
Qed.

(** ** The intrinsics adjuster *)

(** C4: on a 3 x 3 matrix K calibrated at (H0, W0), with H0 and W0 not
    zero, the adjuster returns a matrix whose entries [0,0] and [0,2] are
    those of K times W1/W0, whose entries [1,1] and [1,2] are those of K
    times H1/H0, and whose other entries are those of K. *)
Theorem adjust_intrinsics_entries K Km H0 W0 H1 W1 s :
  arrays s !! K = Some Km -> np.rectangular 3 3 Km ->
  H0 <> 0%Z -> W0 <> 0%Z ->
  exists K' Km' s',
    adjust_intrinsics_for_resolution K (H0, W0) (H1, W1) s = (Ok K', s') /\
    arrays s' !! K' = Some Km' /\
    np.getitem Km' 0 0 = Some (intrinsic Km 0 0 * (inject_Z W1 / inject_Z W0)) /\
    np.getitem Km' 1 1 = Some (intrinsic Km 1 1 * (inject_Z H1 / inject_Z H0)) /\
    np.getitem Km' 0 2 = Some (intrinsic Km 0 2 * (inject_Z W1 / inject_Z W0)) /\
    np.getitem Km' 1 2 = Some (intrinsic Km 1 2 * (inject_Z H1 / inject_Z H0)) /\
    forall i j, (i, j) <> (0, 0)%nat -> (i, j) <> (1, 1)%nat ->
                (i, j) <> (0, 2)%nat -> (i, j) <> (1, 2)%nat ->
                np.getitem Km' i j = np.getitem Km i j.
Proof.
  intros HK H33 HH HW.
  eexists _, _, _. split; [apply (adjust_run _ _ _ _ _ _ _ HK H33 HH HW) |].
  cbn [arrays]. split; [apply lookup_insert_eq |].
  entries33 H33.
  repeat split; try reflexivity.
  intros [|[|[|i']]] [|[|[|j']]] N1 N2 N3 N4; try reflexivity; congruence.
Qed.

Lemma adjust_intrinsics_entries_witness :
  exists K' Km' s',
    adjust_intrinsics_for_resolution 1%positive (480, 640)%Z (240, 320)%Z
      Sample.store = (Ok K', s') /\
    arrays s' !! K' = Some Km' /\
    np.getitem Km' 0 0 = Some (intrinsic Sample.K0 0 0 * (inject_Z 320 / inject_Z 640)) /\
    np.getitem Km' 1 1 = Some (intrinsic Sample.K0 1 1 * (inject_Z 240 / inject_Z 480)) /\
    np.getitem Km' 0 2 = Some (intrinsic Sample.K0 0 2 * (inject_Z 320 / inject_Z 640)) /\
    np.getitem Km' 1 2 = Some (intrinsic Sample.K0 1 2 * (inject_Z 240 / inject_Z 480)) /\
    forall i j, (i, j) <> (0, 0)%nat -> (i, j) <> (1, 1)%nat ->
                (i, j) <> (0, 2)%nat -> (i, j) <> (1, 2)%nat ->
                np.getitem Km' i j = np.getitem Sample.K0 i j.
Proof.
  apply (adjust_intrinsics_entries 1%positive Sample.K0 480 640 240 320 Sample.store).
  - reflexivity.
  - split; [reflexivity | repeat constructor].
  - lia.
  - lia.
Defined.

Lemma adjusted_rectangular m sx sy :
  np.rectangular 3 3 m -> np.rectangular 3 3 (adjusted m sx sy).
Proof.
  intros H33.
  entries33 H33.
  split; [reflexivity | repeat constructor].
Qed.

Lemma inject_Z_nonzero z : z <> 0%Z -> ~ inject_Z z == 0.
Proof.
  intros Hz E. apply Hz. unfold Qeq in E. cbn in E. lia.
Qed.

Lemma adjusted_back m a b c d :
  np.rectangular 3 3 m ->
  a <> 0%Z -> b <> 0%Z -> c <> 0%Z -> d <> 0%Z ->
  matrix_eq
    (adjusted (adjusted m (inject_Z a / inject_Z b) (inject_Z c / inject_Z d))
       (inject_Z b / inject_Z a) (inject_Z d / inject_Z c))
    m.
Proof.
  intros H33 Ha Hb Hc Hd.
  apply inject_Z_nonzero in Ha, Hb, Hc, Hd.
  entries33 H33.
  unfold matrix_eq, adjusted. cbn.
  repeat constructor; try reflexivity; field; auto.
Qed.

(** C5: adjusting a 3 x 3 matrix from resolution A to resolution B and
    the result from B back to A gives a matrix whose entries equal, as
    rationals, those of the matrix one started from; all four dimensions
    are positive. *)
Theorem adjust_intrinsics_round_trip K Km HA WA HB WB s :
  arrays s !! K = Some Km -> np.rectangular 3 3 Km ->
  (0 < HA)%Z -> (0 < WA)%Z -> (0 < HB)%Z -> (0 < WB)%Z ->
  exists K1 s1 K2 s2 Km2,
    adjust_intrinsics_for_resolution K (HA, WA) (HB, WB) s = (Ok K1, s1) /\
    adjust_intrinsics_for_resolution K1 (HB, WB) (HA, WA) s1 = (Ok K2, s2) /\
    arrays s2 !! K2 = Some Km2 /\
    matrix_eq Km2 Km.
Proof.
  intros HK H33 HHA HWA HHB HWB.
  eexists _, _, _, _, _. split.
  { apply (adjust_run _ _ _ _ _ _ _ HK H33); lia. }
  split.
  { apply adjust_run with (Km := adjusted Km (inject_Z WB / inject_Z WA)
                                   (inject_Z HB / inject_Z HA)); try lia.
    - cbn [arrays]. apply lookup_insert_eq.
    - now apply adjusted_rectangular. }
  split.
  { cbn [arrays]. apply lookup_insert_eq. }
  apply adjusted_back; auto; lia.
Qed.

Lemma adjust_intrinsics_round_trip_witness :
  exists K1 s1 K2 s2 Km2,
    adjust_intrinsics_for_resolution 1%positive (480, 640)%Z (192, 256)%Z
      Sample.store = (Ok K1, s1) /\
    adjust_intrinsics_for_resolution K1 (192, 256)%Z (480, 640)%Z s1 = (Ok K2, s2) /\
    arrays s2 !! K2 = Some Km2 /\
    matrix_eq Km2 Sample.K0.
Proof.
  apply (adjust_intrinsics_round_trip 1%positive Sample.K0 480 640 192 256 Sample.store).
  - reflexivity.
  - split; [reflexivity | repeat constructor].
  - lia.
  - lia.
  - lia.
  - lia.
Defined.

(** *** The caller's matrix is left alone *)


Lemma writes_only_ret {A} a (x : A) : writes_only a (ret x).
Proof. intros s. now repeat split. Qed.

Lemma writes_only_bind {A B} a (m : M A) (k : A -> M B) :
  writes_only a m -> (forall x, writes_only a (k x)) -> writes_only a (bind m k).
Proof.
  intros Hm Hk s. unfold bind.
  destruct (Hm s) as (Hf & Ha & Hs). destruct (m s) as [[x | e] s1]; cbn [snd] in *.
  - destruct (Hk x s1) as (Hf' & Ha' & Hs'). split; [congruence |]. split; [| auto].
    intros l Hl. rewrite Ha', Ha; auto.
  - auto.
Qed.

Lemma writes_only_imul a i j x : writes_only a (np.imul a i j x).
Proof.
  intros s. unfold np.imul.
  destruct (arrays s !! a) as [m |] eqn:E; [| cbn; rewrite ?E; now repeat split].
  destruct (np.getitem m i j); [| cbn; rewrite ?E; now repeat split].
  cbn. split; [reflexivity |]. split.
  - intros l Hl. now apply lookup_insert_ne.
  - intros _. rewrite lookup_insert_eq. eauto.
Qed.

Lemma returns_ret {A} (v : A) : returns v (ret v).
Proof. intros s x [= ->]. reflexivity. Qed.

Lemma returns_bind {A B} (v : B) (m : M A) (k : A -> M B) :
  (forall x, returns v (k x)) -> returns v (bind m k).
Proof.
  intros Hk s y. unfold bind. destruct (m s) as [[x | e] s1]; [apply Hk | discriminate].
Qed.

(** C9: whatever the arguments and the store, a call of the adjuster
    leaves every array that was alive before it, the caller's K among
    them, with the values it had, writes no file, and the matrix it
    returns is an array that did not exist before the call. *)
Theorem adjust_intrinsics_keeps_input K original_size target_size s :
  let r := adjust_intrinsics_for_resolution K original_size target_size s in
  (forall l m, arrays s !! l = Some m -> arrays (snd r) !! l = Some m) /\
  files (snd r) = files s /\
  (forall K', fst r = Ok K' ->
     arrays s !! K' = None /\ K' <> K /\ is_Some (arrays (snd r) !! K')).
Proof.
  intros r.
  set (P := fun r : result loc * state =>
    (forall l m, arrays s !! l = Some m -> arrays (snd r) !! l = Some m) /\
    files (snd r) = files s /\
    (forall K', fst r = Ok K' ->
       arrays s !! K' = None /\ K' <> K /\ is_Some (arrays (snd r) !! K'))).
  change (P r).
  assert (Hstop : forall e : exn, P (Raise e, s)).
  { intros e. unfold P. cbn. repeat split; auto; discriminate. }
  subst r. unfold adjust_intrinsics_for_resolution, truediv.
  destruct (snd original_size =? 0)%Z; [apply Hstop |].
  destruct (fst original_size =? 0)%Z; [apply Hstop |].
  rewrite (bind_ok (ret _) _ s _ s eq_refl), (bind_ok (ret _) _ s _ s eq_refl).
  destruct (arrays s !! K) as [Km |] eqn:HK.
  2:{ erewrite bind_raise by (unfold np.copy; rewrite HK; reflexivity).
      apply Hstop. }
  rewrite (bind_ok _ _ _ _ _ (copy_run _ _ _ HK)).
  set (l := fresh (dom (arrays s))).
  set (s1 := mkState _ _).
  set (tail := bind _ _).
  assert (Hl : arrays s !! l = None) by apply fresh_loc_dead.
  assert (Ht : writes_only l tail).
  { unfold tail. repeat (apply writes_only_bind; [apply writes_only_imul | intros _]).
    apply writes_only_ret. }
  assert (Hr : returns l tail).
  { unfold tail. repeat (apply returns_bind; intros _). apply returns_ret. }
  destruct (Ht s1) as (Hf & Ha & Hs). unfold P. split; [| split].
  - intros l' m Hm. rewrite Ha by congruence.
    subst s1. cbn [arrays]. rewrite lookup_insert_ne by congruence. exact Hm.
  - rewrite Hf. reflexivity.
  - intros K' HK'. apply Hr in HK'. subst K'.
    split; [exact Hl |]. split; [congruence |].
    apply Hs. subst s1. cbn [arrays]. rewrite lookup_insert_eq. eauto.
Qed.

(** ** Arrays as tables *)


Lemma list_tabulate {A} (d : A) (l : list A) n :
  length l = n -> l = map (fun i => default d (l !! i)) (seq 0 n).
Proof.
  intros <-. apply list_eq. intros i.
  rewrite list_lookup_fmap.
  destruct (l !! i) as [x |] eqn:E.
  - rewrite lookup_seq_lt by (eapply lookup_lt_Some; eauto). cbn. now rewrite E.
  - rewrite lookup_seq_ge by (now apply lookup_ge_None). reflexivity.
Qed.

Lemma pixels_tabulate {A} (d : A) (img : image A) :
  well_shaped img ->
  pixels img =
    tabulate (height img) (width img) (fun u v => default d (pixel_at img v u)).
Proof.
  intros [Hh Hw]. unfold tabulate.
  rewrite (list_tabulate [] (pixels img) (height img) Hh) at 1.
  apply map_ext_in. intros v Hv. apply in_seq in Hv.
  destruct (pixels img !! v) as [row |] eqn:E.
  2:{ apply lookup_ge_None in E. lia. }
  cbn. assert (Hrow : length row = width img).
  { rewrite Forall_forall in Hw. apply Hw. eapply list_elem_of_lookup_2; eauto. }
  rewrite (list_tabulate d row (width img) Hrow) at 1.
  apply map_ext. intros u. unfold pixel_at. now rewrite E.
Qed.

Lemma map_tabulate {A B} (g : A -> B) h w (f : nat -> nat -> A) :
  map (map g) (tabulate h w f) = tabulate h w (fun u v => g (f u v)).
Proof.
  unfold tabulate. rewrite map_map. apply map_ext. intros v. now rewrite map_map.
Qed.

Lemma meshgrid_u h w :
  npv.astype_float (fst (npv.meshgrid (npv.range w) (npv.range h))) =
  tabulate h w (fun u _ => inject_Z (Z.of_nat u)).
Proof.
  unfold npv.astype_float, npv.meshgrid, npv.range, tabulate. cbn [fst].
  rewrite !map_map. apply map_ext. intros v. now rewrite ?map_map.
Qed.

Lemma meshgrid_v h w :
  npv.astype_float (snd (npv.meshgrid (npv.range w) (npv.range h))) =
  tabulate h w (fun _ v => inject_Z (Z.of_nat v)).
Proof.
  unfold npv.astype_float, npv.meshgrid, npv.range, tabulate. cbn [snd].
  rewrite !map_map. apply map_ext. intros v. now rewrite ?map_map.
Qed.

Lemma zip_with_maps {A B C D} (f : B -> C -> D) (g : A -> B) (k : A -> C) l :
  zip_with f (map g l) (map k l) = map (fun x => f (g x) (k x)) l.
Proof. induction l as [| x l IH]; cbn; [reflexivity | now rewrite IH]. Qed.

Lemma map2_tabulate f h w (a b : nat -> nat -> Q) :
  npv.map2 f (tabulate h w a) (tabulate h w b) =
  tabulate h w (fun u v => f (a u v) (b u v)).
Proof.
  unfold npv.map2, tabulate. rewrite zip_with_maps.
  apply map_ext. intros v. apply zip_with_maps.
Qed.

Lemma ravel_tabulate {A} h w (f : nat -> nat -> A) :
  npv.ravel (tabulate h w f) = map (fun p => f (fst p) (snd p)) (row_major h w).
Proof.
  unfold npv.ravel, tabulate, row_major.
  induction (seq 0 h) as [| v vs IH]; cbn; [reflexivity |].
  rewrite map_app, IH, map_map. reflexivity.
Qed.

(** ** Boolean masks, stacks and transposes *)

Lemma select_maps {A B} (p : A -> bool) (f : A -> B) l :
  npv.select (map p l) (map f l) = map f (List.filter p l).
Proof.
  induction l as [| x l IH]; cbn; [reflexivity |].
  destruct (p x); cbn; now rewrite IH.
Qed.

Lemma boolean_index_maps {A B} (p : A -> bool) (f : A -> B) l :
  npv.boolean_index (map f l) (map p l) = Ok (map f (List.filter p l)).
Proof.
  unfold npv.boolean_index. rewrite !length_map.
  destruct (decide (length l = length l)); [| contradiction].
  now rewrite select_maps.
Qed.

Lemma ones_map {A} (l : list A) : npv.ones (length l) = map (fun _ => 1) l.
Proof. unfold npv.ones. induction l; cbn; [reflexivity | now f_equal]. Qed.

Lemma vstack_maps {A} (f : A -> Q) (fs : list (A -> Q)) l :
  npv.vstack (map (fun g => map g l) (f :: fs)) =
  Ok (map (fun g => map g l) (f :: fs)).
Proof.
  cbn. replace (forallb _ _) with true; [reflexivity |].
  symmetry. apply forallb_forall. intros r Hr.
  apply in_map_iff in Hr as (g & <- & _). rewrite !length_map. apply Nat.eqb_refl.
Qed.

Lemma transpose_maps {A} (f : A -> Q) (fs : list (A -> Q)) l :
  npv.transpose (map (fun g => map g l) (f :: fs)) =
  map (fun x => map (fun g => g x) (f :: fs)) l.
Proof.
  unfold npv.transpose. cbn [map hd]. rewrite length_map.
  apply list_eq. intros j. rewrite !list_lookup_fmap.
  destruct (l !! j) as [x |] eqn:E.
  - rewrite lookup_seq_lt by (eapply lookup_lt_Some; eauto). cbn.
    f_equal. unfold npv.column.
    assert (Hn : forall g : A -> Q, nth j (map g l) 0 = g x).
    { intros g. apply nth_lookup_Some. now rewrite list_lookup_fmap, E. }
    rewrite Hn. f_equal. rewrite map_map. apply map_ext. intros g. apply Hn.
  - rewrite lookup_seq_ge by (now apply lookup_ge_None). reflexivity.
Qed.

Lemma bind_lift {A B} (r : result A) (k : A -> M B) a s :
  r = Ok a -> bind (lift r) k s = k a s.
Proof. intros ->. reflexivity. Qed.

Lemma rectangular44 (m : matrix) :
  np.rectangular 4 4 m ->
  exists r0 r1 r2 r3, m = [r0; r1; r2; r3] /\
    length r0 = 4%nat /\ length r1 = 4%nat /\ length r2 = 4%nat /\ length r3 = 4%nat.
Proof.
  intros [Hl Hr].
  destruct m as [|r0 [|r1 [|r2 [|r3 [|? ?]]]]]; try discriminate.
  inversion Hr as [|? ? H0 Hr1]; subst.
  inversion Hr1 as [|? ? H1 Hr2]; subst.
  inversion Hr2 as [|? ? H2 Hr3]; subst.
  inversion Hr3 as [|? ? H3 _]; subst.
  eauto 10.
Qed.

Lemma dot_maps {A} (a : matrix) (f : A -> Q) (fs : list (A -> Q)) l :
  Forall (fun row => length row = S (length fs)) a ->
  npv.dot a (map (fun g => map g l) (f :: fs)) =
  Ok (map (fun row => map (fun x => npv.inner row (map (fun g => g x) (f :: fs))) l) a).
Proof.
  intros Ha. unfold npv.dot. rewrite length_map. cbn [length].
  replace (forallb _ a) with true.
  2:{ symmetry. apply forallb_forall. intros row Hrow.
      rewrite Forall_forall in Ha. apply Nat.eqb_eq, Ha.
      now apply list_elem_of_In. }
  rewrite transpose_maps. f_equal. apply map_ext. intros row.
  now rewrite map_map.
Qed.

Lemma vstack4 {A} (f1 f2 f3 f4 : A -> Q) l :
  npv.vstack [map f1 l; map f2 l; map f3 l; map f4 l] =
  Ok [map f1 l; map f2 l; map f3 l; map f4 l].
Proof. exact (vstack_maps f1 [f2; f3; f4] l). Qed.

Lemma vstack6 {A} (f1 f2 f3 f4 f5 f6 : A -> Q) l :
  npv.vstack [map f1 l; map f2 l; map f3 l; map f4 l; map f5 l; map f6 l] =
  Ok [map f1 l; map f2 l; map f3 l; map f4 l; map f5 l; map f6 l].
Proof. exact (vstack_maps f1 [f2; f3; f4; f5; f6] l). Qed.

Lemma transpose6 {A} (f1 f2 f3 f4 f5 f6 : A -> Q) l :
  npv.transpose [map f1 l; map f2 l; map f3 l; map f4 l; map f5 l; map f6 l] =
  map (fun x => [f1 x; f2 x; f3 x; f4 x; f5 x; f6 x]) l.
Proof. exact (transpose_maps f1 [f2; f3; f4; f5; f6] l). Qed.

Lemma dot4 {A} (a : matrix) (f1 f2 f3 f4 : A -> Q) l :
  Forall (fun row => length row = 4%nat) a ->
  npv.dot a [map f1 l; map f2 l; map f3 l; map f4 l] =
  Ok (map (fun row => map (fun x => npv.inner row [f1 x; f2 x; f3 x; f4 x]) l) a).
Proof. exact (dot_maps a f1 [f2; f3; f4] l). Qed.

(** ** The back-projector is the scan *)

Lemma get_intrinsic K Km i j s :
  arrays s !! K = Some Km -> np.rectangular 3 3 Km ->
  (i < 3)%nat -> (j < 3)%nat ->
  np.get K i j s = (Ok (intrinsic Km i j), s).
Proof.
  intros HK H33 Hi Hj. apply (get_run _ _ _ _ _ _ HK).
  entries33 H33.
  destruct i as [| [| [| i]]]; try lia;
    destruct j as [| [| [| j]]]; try lia; reflexivity.
Qed.

Lemma same_grid_no_adjust cv2_resize rgb depth scale K pose rgb_size :
  shape2 rgb = shape2 depth ->
  depth_image_to_point_cloud cv2_resize rgb depth scale K pose rgb_size =
  depth_image_to_point_cloud cv2_resize rgb depth scale K pose None.
Proof.
  intros Hg. unfold depth_image_to_point_cloud.
  destruct rgb_size as [size |]; [| reflexivity].
  destruct (decide (shape2 rgb <> shape2 depth)); [contradiction | reflexivity].
Qed.

Lemma back_projector_run cv2_resize rgb depth scale K Km pose rgb_size s :
  frame s rgb depth K Km pose ->
  depth_image_to_point_cloud cv2_resize rgb depth scale K pose rgb_size s =
    (Ok (project rgb depth scale Km pose), s).
Proof.
  intros [Hrgb Hdepth Hgrid HK H33 Hpose].
  rewrite (same_grid_no_adjust _ _ _ _ _ _ _ Hgrid).
  unfold depth_image_to_point_cloud.
  rewrite (bind_ok (ret _) _ s _ s eq_refl). cbn [fst snd].
  unfold project, survivors.
  rewrite (bind_ok _ _ _ _ _ (get_intrinsic K Km 0 2 s HK H33 ltac:(lia) ltac:(lia))).
  rewrite (bind_ok _ _ _ _ _ (get_intrinsic K Km 0 0 s HK H33 ltac:(lia) ltac:(lia))).
  rewrite (bind_ok _ _ _ _ _ (get_intrinsic K Km 1 2 s HK H33 ltac:(lia) ltac:(lia))).
  rewrite (bind_ok _ _ _ _ _ (get_intrinsic K Km 1 1 s HK H33 ltac:(lia) ltac:(lia))).
  rewrite meshgrid_u, meshgrid_v.
  rewrite (pixels_tabulate 0%Z depth Hdepth), map_tabulate.
  rewrite (pixels_tabulate (mkSample 0 0 0) rgb Hrgb), !map_tabulate.
  injection Hgrid as -> ->.
  rewrite !map2_tabulate, !ravel_tabulate, map_map.
  set (grid := row_major (height depth) (width depth)).
  rewrite (bind_lift _ _ _ _ (boolean_index_maps _ _ grid)).
  rewrite (bind_lift _ _ _ _ (boolean_index_maps _ _ grid)).
  rewrite (bind_lift _ _ _ _ (boolean_index_maps _ _ grid)).
  set (surv := List.filter _ grid).
  rewrite length_map, ones_map.
  rewrite (bind_lift _ _ _ _ (vstack4 _ _ _ _ surv)).
  destruct (rectangular44 _ Hpose) as (r0 & r1 & r2 & r3 & -> & L0 & L1 & L2 & L3).
  rewrite (bind_lift _ _ _ _ (dot4 [r0; r1; r2; r3] _ _ _ _ surv
             ltac:(repeat constructor; assumption))).
  rewrite (bind_lift _ _ _ _ (boolean_index_maps _ _ grid)).
  rewrite (bind_lift _ _ _ _ (boolean_index_maps _ _ grid)).
  rewrite (bind_lift _ _ _ _ (boolean_index_maps _ _ grid)).
  fold surv. rewrite !map_map. cbn [map take app].
  rewrite (bind_lift _ _ _ _ (vstack6 _ _ _ _ _ _ surv)).
  unfold ret. rewrite transpose6. reflexivity.
Qed.

(** ** The grid and the filter *)

Lemma row_major_In h w u v :
  In (u, v) (row_major h w) <-> (u < w)%nat /\ (v < h)%nat.
Proof.
  unfold row_major. rewrite in_flat_map. split.
  - intros (v' & Hv & Hu). apply in_map_iff in Hu as (u' & [= -> ->] & Hu).
    apply in_seq in Hv, Hu. lia.
  - intros [Hu Hv]. exists v. split; [apply in_seq; lia |].
    apply in_map_iff. exists u. split; [reflexivity | apply in_seq; lia].
Qed.

Lemma row_major_length h w : length (row_major h w) = (h * w)%nat.
Proof.
  unfold row_major. generalize 0%nat at 2.
  induction h as [| h IH]; intros a; cbn [seq flat_map]; [reflexivity |].
  rewrite length_app, length_map, length_seq, IH. reflexivity.
Qed.

Lemma rows_lookup w a h u v :
  (u < w)%nat -> (v < h)%nat ->
  flat_map (fun v => map (fun u => (u, v)) (seq 0 w)) (seq a h)
    !! (v * w + u)%nat = Some (u, (a + v)%nat).
Proof.
  intros Hu. revert a v. induction h as [| h IH]; intros a v Hv; [lia |].
  cbn [seq flat_map]. destruct v as [| v].
  - rewrite lookup_app_l by (rewrite length_map, length_seq; cbn; lia).
    cbn. rewrite list_lookup_fmap, lookup_seq_lt by lia. cbn.
    do 2 f_equal. lia.
  - rewrite lookup_app_r by (rewrite length_map, length_seq; cbn; lia).
    rewrite length_map, length_seq.
    replace (S v * w + u - w)%nat with (v * w + u)%nat by lia.
    rewrite IH by lia. do 2 f_equal. lia.
Qed.

Lemma row_major_lookup h w u v :
  (u < w)%nat -> (v < h)%nat -> row_major h w !! (v * w + u)%nat = Some (u, v).
Proof. intros Hu Hv. apply (rows_lookup w 0 h u v Hu Hv). Qed.

Lemma row_major_NoDup h w : NoDup (row_major h w).
Proof.
  unfold row_major.
  assert (Hvs : NoDup (seq 0 h)) by apply NoDup_seq.
  induction Hvs as [| v vs Hv Hvs IH]; cbn; [constructor |].
  apply NoDup_app. split; [| split; [| exact IH]].
  - apply NoDup_fmap_2; [| apply NoDup_seq]. intros u u' [=]. assumption.
  - intros [u' v'] Hin Hin'. apply list_elem_of_In in Hin, Hin'.
    apply in_map_iff in Hin as (? & [= -> ->] & _).
    apply in_flat_map in Hin' as (v'' & Hv'' & Hin').
    apply in_map_iff in Hin' as (? & [= _ ->] & _).
    apply Hv. now apply list_elem_of_In.
Qed.

Lemma filter_NoDup {A} (f : A -> bool) l : NoDup l -> NoDup (List.filter f l).
Proof.
  induction 1 as [| x l Hx Hl IH]; cbn; [constructor |].
  destruct (f x); [| exact IH]. constructor; [| exact IH].
  intros Hin. apply Hx. apply list_elem_of_In in Hin.
  apply filter_In in Hin as [Hin _]. now apply list_elem_of_In.
Qed.

Lemma filter_map_length {A B} (p : B -> bool) (f : A -> B) l :
  length (List.filter p (map f l)) = length (List.filter (fun x => p (f x)) l).
Proof.
  induction l as [| x l IH]; cbn; [reflexivity |].
  destruct (p (f x)); cbn; now rewrite IH.
Qed.

Lemma Qltb_lt x y : Qltb x y = true <-> x < y.
Proof.
  unfold Qltb. rewrite negb_true_iff, <- not_true_iff_false, Qle_bool_iff.
  split; [apply Qnot_le_lt | apply Qlt_not_le].
Qed.

Lemma positive_real_depth (d : Z) scale :
  0 < scale -> Qltb 0 (inject_Z d / scale) = (0 <? d)%Z.
Proof.
  intros Hs. destruct (Z.ltb_spec 0 d) as [Hd | Hd].
  - apply Qltb_lt. apply Qlt_shift_div_l; [exact Hs |].
    rewrite Qmult_0_l. change 0 with (inject_Z 0). now rewrite <- Zlt_Qlt.
  - apply not_true_iff_false. rewrite Qltb_lt. apply Qle_not_lt.
    apply Qle_shift_div_r; [exact Hs |]. rewrite Qmult_0_l.
    change 0 with (inject_Z 0). now rewrite <- Zle_Qle.
Qed.

Lemma pixel_at_Some {A} (img : image A) u v :
  well_shaped img ->
  (u < width img)%nat -> (v < height img)%nat -> is_Some (pixel_at img v u).
Proof.
  intros [Hh Hw] Hu Hv. unfold pixel_at.
  destruct (pixels img !! v) as [row |] eqn:E.
  2:{ apply lookup_ge_None in E. lia. }
  cbn. apply lookup_lt_is_Some.
  rewrite Forall_forall in Hw. rewrite (Hw row); [exact Hu |].
  eapply list_elem_of_lookup_2; eauto.
Qed.

Lemma pixel_at_in_range {A} (img : image A) u v x :
  well_shaped img ->
  pixel_at img v u = Some x -> (u < width img)%nat /\ (v < height img)%nat.
Proof.
  intros [Hh Hw]. unfold pixel_at.
  destruct (pixels img !! v) as [row |] eqn:E; [| discriminate].
  cbn. intros Hx. split.
  - rewrite Forall_forall in Hw. rewrite <- (Hw row).
    + eapply lookup_lt_Some; eauto.
    + eapply list_elem_of_lookup_2; eauto.
  - rewrite <- Hh. eapply lookup_lt_Some; eauto.
Qed.

(** ** The back-projector: order, count, colour, re-projection *)

(** The scenario of the specification: a 2 x 2 depth image
    [[0, 1000], [2000, 0]], scale 1000, fx = fy = 1, cx = cy = 0, the
    identity pose and a white image give two points, (1, 0, 1) for pixel
    (1, 0) and (0, 2, 2) for pixel (0, 1). *)
Example scenario_two_points :
  exists points,
    fst (depth_image_to_point_cloud Sample.no_resize
           (mkImage 2 2 [[Sample.white; Sample.white]; [Sample.white; Sample.white]])
           Sample.depth22 1000 1%positive identity4 None
           (mkState {[ 1%positive := [[1; 0; 0]; [0; 1; 0]; [0; 0; 1]] ]} ∅)) =
      Ok points /\
    matrix_eq points [[1; 0; 1; 255; 255; 255]; [0; 2; 2; 255; 255; 255]].
Proof.
  eexists. split; [vm_compute; reflexivity |].
  repeat constructor.
Qed.

(** C7: on a frame, the back-projector returns the points of the pixels
    that pass the depth filter in the order of the row-major scan of the
    H x W grid of the depth image, one point per such pixel, nothing
    sorted and nothing merged; the scan visits pixel (u, v) at position
    v * W + u. *)
Theorem point_cloud_row_major cv2_resize rgb depth scale K Km pose rgb_size s :
  frame s rgb depth K Km pose ->
  depth_image_to_point_cloud cv2_resize rgb depth scale K pose rgb_size s =
    (Ok (map (project_pixel rgb depth scale Km pose)
           (List.filter (survives depth scale)
              (row_major (height depth) (width depth)))), s) /\
  length (row_major (height depth) (width depth)) =
    (height depth * width depth)%nat /\
  forall u v, (u < width depth)%nat -> (v < height depth)%nat ->
    row_major (height depth) (width depth) !! (v * width depth + u)%nat =
      Some (u, v).
Proof.
  intros Hf. split; [| split].
  - apply (back_projector_run _ _ _ _ _ _ _ _ _ Hf).
  - apply row_major_length.
  - intros u v. apply row_major_lookup.
Qed.

Lemma sample_frame :
  frame Sample.store Sample.rgb22 Sample.depth22 1%positive Sample.K0 identity4.
Proof.
  constructor; try reflexivity; split; try reflexivity; repeat constructor.
Qed.

Lemma point_cloud_row_major_witness :
  depth_image_to_point_cloud Sample.no_resize Sample.rgb22 Sample.depth22
      1000 1%positive identity4 None Sample.store =
    (Ok (map (project_pixel Sample.rgb22 Sample.depth22 1000 Sample.K0 identity4)
           (List.filter (survives Sample.depth22 1000) (row_major 2 2))),
     Sample.store) /\
  length (row_major 2 2) = 4%nat /\
  forall u v, (u < 2)%nat -> (v < 2)%nat ->
    row_major 2 2 !! (v * 2 + u)%nat = Some (u, v).
Proof.
  exact (point_cloud_row_major Sample.no_resize Sample.rgb22 Sample.depth22
           1000 1%positive Sample.K0 identity4 None Sample.store sample_frame).
Defined.

Lemma survivors_In depth scale u v :
  well_shaped depth -> 0 < scale ->
  In (u, v) (survivors depth scale) <->
  exists d, pixel_at depth v u = Some d /\ (0 < d)%Z.
Proof.
  intros Hd Hs. unfold survivors. rewrite filter_In, row_major_In.
  unfold survives, real_depth. cbn [fst snd].
  rewrite positive_real_depth by exact Hs. split.
  - intros [[Hu Hv] Hpos].
    destruct (pixel_at_Some depth u v Hd Hu Hv) as [d E].
    rewrite E in Hpos. cbn in Hpos. exists d. split; [exact E | lia].
  - intros (d & E & Hpos).
    split; [apply (pixel_at_in_range _ _ _ _ Hd E) |].
    rewrite E. cbn. lia.
Qed.

Lemma survivors_length depth scale :
  well_shaped depth -> 0 < scale ->
  length (survivors depth scale) = positive_depths depth.
Proof.
  intros Hd Hs. unfold positive_depths, survivors.
  rewrite (pixels_tabulate 0%Z depth Hd).
  change (concat ?a) with (npv.ravel a).
  rewrite ravel_tabulate, filter_map_length. f_equal.
  apply filter_ext. intros p. apply positive_real_depth, Hs.
Qed.

(** C2: on a frame with a positive scale factor the back-projector
    returns one point for each pixel of the grid whose stored depth is
    strictly positive and none for the others: the pixels that emit are
    pairwise distinct, they are the pixels of positive depth, and the
    number of points is the number of such pixels. *)
Theorem one_point_per_positive_depth
    cv2_resize rgb depth scale K Km pose rgb_size s :
  frame s rgb depth K Km pose -> 0 < scale ->
  exists emitting points,
    depth_image_to_point_cloud cv2_resize rgb depth scale K pose rgb_size s =
      (Ok points, s) /\
    points = map (project_pixel rgb depth scale Km pose) emitting /\
    NoDup emitting /\
    (forall u v, In (u, v) emitting <->
                 exists d, pixel_at depth v u = Some d /\ (0 < d)%Z) /\
    length points = positive_depths depth.
Proof.
  intros Hf Hs. exists (survivors depth scale), (project rgb depth scale Km pose).
  split; [apply (back_projector_run _ _ _ _ _ _ _ _ _ Hf) |].
  split; [reflexivity |].
  split; [apply filter_NoDup, row_major_NoDup |].
  split.
  - intros u v. apply survivors_In; [apply Hf | exact Hs].
  - unfold project. rewrite length_map. apply survivors_length; [apply Hf | exact Hs].
Qed.

Lemma one_point_per_positive_depth_witness :
  exists emitting points,
    depth_image_to_point_cloud Sample.no_resize Sample.rgb22 Sample.depth22
      1000 1%positive identity4 None Sample.store = (Ok points, Sample.store) /\
    points = map (project_pixel Sample.rgb22 Sample.depth22 1000 Sample.K0 identity4)
               emitting /\
    NoDup emitting /\
    (forall u v, In (u, v) emitting <->
                 exists d, pixel_at Sample.depth22 v u = Some d /\ (0 < d)%Z) /\
    length points = positive_depths Sample.depth22.
Proof.
  apply (one_point_per_positive_depth Sample.no_resize Sample.rgb22
           Sample.depth22 1000 1%positive Sample.K0 identity4 None Sample.store).
  - exact sample_frame.
  - reflexivity.
Defined.

Lemma project_lookup rgb depth scale Km pose k p :
  survivors depth scale !! k = Some p ->
  project rgb depth scale Km pose !! k =
    Some (project_pixel rgb depth scale Km pose p).
Proof. intros E. unfold project. now rewrite list_lookup_fmap, E. Qed.

Lemma survivors_positive depth scale k p :
  survivors depth scale !! k = Some p -> 0 < real_depth depth scale p.
Proof.
  intros E. apply list_elem_of_lookup_2, list_elem_of_In in E.
  unfold survivors in E. apply filter_In in E as [_ E]. now apply Qltb_lt.
Qed.

Lemma inner_e0 x y z w : npv.inner [1; 0; 0; 0] [x; y; z; w] == x.
Proof. unfold npv.inner. cbn. ring. Qed.

Lemma inner_e1 x y z w : npv.inner [0; 1; 0; 0] [x; y; z; w] == y.
Proof. unfold npv.inner. cbn. ring. Qed.

Lemma inner_e2 x y z w : npv.inner [0; 0; 1; 0] [x; y; z; w] == z.
Proof. unfold npv.inner. cbn. ring. Qed.

(** C3: with the identity pose and fx, fy not zero, the point (X, Y, Z)
    emitted for a pixel (u, v) that passes the depth filter has Z > 0 and
    re-projects onto the pixel: X fx / Z + cx = u and Y fy / Z + cy = v,
    as rationals. *)
Theorem back_projection_inverts cv2_resize rgb depth scale K Km rgb_size s :
  frame s rgb depth K Km identity4 ->
  ~ intrinsic Km 0 0 == 0 -> ~ intrinsic Km 1 1 == 0 ->
  exists points,
    depth_image_to_point_cloud cv2_resize rgb depth scale K identity4 rgb_size s =
      (Ok points, s) /\
    forall k u v, survivors depth scale !! k = Some (u, v) ->
      exists X Y Z r g b,
        points !! k = Some [X; Y; Z; r; g; b] /\
        0 < Z /\
        X * intrinsic Km 0 0 / Z + intrinsic Km 0 2 == inject_Z (Z.of_nat u) /\
        Y * intrinsic Km 1 1 / Z + intrinsic Km 1 2 == inject_Z (Z.of_nat v).
Proof.
  intros Hf Hfx Hfy. eexists. split; [apply (back_projector_run _ _ _ _ _ _ _ _ _ Hf) |].
  intros k u v E. pose proof (survivors_positive _ _ _ _ E) as Hz.
  rewrite (project_lookup _ _ _ _ _ _ _ E).
  unfold project_pixel, back_project, colour, identity4.
  cbn [take map app fst snd] in *.
  set (Zd := real_depth depth scale (u, v)) in *.
  eexists _, _, _, _, _, _. split; [reflexivity |].
  assert (Hz' : ~ Zd == 0) by (intros E0; rewrite E0 in Hz; discriminate).
  rewrite inner_e0, inner_e1, inner_e2.
  split; [exact Hz |]. split; field; split; assumption.
Qed.

Lemma back_projection_inverts_witness :
  exists points,
    depth_image_to_point_cloud Sample.no_resize Sample.rgb22 Sample.depth22
      1000 1%positive identity4 None Sample.store = (Ok points, Sample.store) /\
    forall k u v, survivors Sample.depth22 1000 !! k = Some (u, v) ->
      exists X Y Z r g b,
        points !! k = Some [X; Y; Z; r; g; b] /\
        0 < Z /\
        X * intrinsic Sample.K0 0 0 / Z + intrinsic Sample.K0 0 2 ==
          inject_Z (Z.of_nat u) /\
        Y * intrinsic Sample.K0 1 1 / Z + intrinsic Sample.K0 1 2 ==
          inject_Z (Z.of_nat v).
Proof.
  apply (back_projection_inverts Sample.no_resize Sample.rgb22 Sample.depth22
           1000 1%positive Sample.K0 None Sample.store).
  - exact sample_frame.
  - discriminate.
  - discriminate.
Defined.

(** C6: on a frame, the point emitted for a pixel that passes the depth
    filter and whose colour sample is stored as (blue, green, red)
    carries, after its position, red, then green, then blue; a sample
    stored as (10, 20, 30) gives the colour (30, 20, 10). *)
Theorem colour_red_green_blue cv2_resize rgb depth scale K Km pose rgb_size s :
  frame s rgb depth K Km pose ->
  exists points,
    depth_image_to_point_cloud cv2_resize rgb depth scale K pose rgb_size s =
      (Ok points, s) /\
    forall k u v blue green red,
      survivors depth scale !! k = Some (u, v) ->
      pixel_at rgb v u = Some (mkSample blue green red) ->
      exists x y z,
        points !! k =
          Some [x; y; z; inject_Z red; inject_Z green; inject_Z blue].
Proof.
  intros Hf. eexists. split; [apply (back_projector_run _ _ _ _ _ _ _ _ _ Hf) |].
  intros k u v blue green red E Hc.
  rewrite (project_lookup _ _ _ _ _ _ _ E).
  destruct (rectangular44 _ (frame_pose _ _ _ _ _ _ Hf))
    as (r0 & r1 & r2 & r3 & -> & _).
  unfold project_pixel, colour. cbn [take map app fst snd]. rewrite Hc. cbn.
  eexists _, _, _. reflexivity.
Qed.

Lemma colour_red_green_blue_witness :
  exists points,
    depth_image_to_point_cloud Sample.no_resize Sample.rgb22 Sample.depth22
      1000 1%positive identity4 None Sample.store = (Ok points, Sample.store) /\
    forall k u v blue green red,
      survivors Sample.depth22 1000 !! k = Some (u, v) ->
      pixel_at Sample.rgb22 v u = Some (mkSample blue green red) ->
      exists x y z,
        points !! k =
          Some [x; y; z; inject_Z red; inject_Z green; inject_Z blue].
Proof.
  exact (colour_red_green_blue Sample.no_resize Sample.rgb22 Sample.depth22
           1000 1%positive Sample.K0 identity4 None Sample.store sample_frame).
Defined.

(** ** Images on different grids *)

Lemma resized_run cv2_resize rgb rgb' depth scale K Km pose H0 W0 s :
  shape2 rgb <> shape2 depth ->
  arrays s !! K = Some Km -> np.rectangular 3 3 Km ->
  H0 <> 0%Z -> W0 <> 0%Z ->
  cv2_resize rgb (width depth, height depth) = Ok rgb' ->
  depth_image_to_point_cloud cv2_resize rgb depth scale K pose (Some (H0, W0)) s =
  depth_image_to_point_cloud cv2_resize rgb' depth scale
    (fresh (dom (arrays s))) pose None
    (mkState (<[fresh (dom (arrays s)) :=
                adjusted Km (inject_Z (Z.of_nat (width depth)) / inject_Z W0)
                  (inject_Z (Z.of_nat (height depth)) / inject_Z H0)]>
              (arrays s)) (files s)).
Proof.
  intros Hne HK H33 HH HW Hres.
  unfold depth_image_to_point_cloud at 1.
  destruct (decide (shape2 rgb <> shape2 depth)); [| contradiction].
  rewrite Hres.
  erewrite bind_ok; cycle 1.
  { rewrite (bind_ok _ _ _ _ _ (adjust_run _ _ _ _ _ _ _ HK H33 HH HW)).
    reflexivity. }
  reflexivity.
Qed.

(** C1, as the script has it: when the two images are on different
    grids and [rgb_size], with dimensions that are not zero, is passed,
    the call is not rejected.  K is rescaled in a copy from [rgb_size] to
    the depth grid, cv2.resize resamples the colour image to the depth
    grid, and the points returned are those of the scan of the depth grid
    with the rescaled matrix and the resampled colours, one per pixel of
    positive depth when the scale factor is positive. *)
Theorem mismatched_grid_resampled
    cv2_resize rgb rgb' depth scale K Km pose H0 W0 s :
  shape2 rgb <> shape2 depth ->
  well_shaped depth ->
  arrays s !! K = Some Km -> np.rectangular 3 3 Km -> np.rectangular 4 4 pose ->
  H0 <> 0%Z -> W0 <> 0%Z ->
  cv2_resize rgb (width depth, height depth) = Ok rgb' ->
  well_shaped rgb' -> shape2 rgb' = shape2 depth ->
  exists K' s',
    let Km' := adjusted Km (inject_Z (Z.of_nat (width depth)) / inject_Z W0)
                 (inject_Z (Z.of_nat (height depth)) / inject_Z H0) in
    depth_image_to_point_cloud cv2_resize rgb depth scale K pose
      (Some (H0, W0)) s = (Ok (project rgb' depth scale Km' pose), s') /\
    arrays s !! K' = None /\
    arrays s' = <[K' := Km']> (arrays s) /\
    files s' = files s /\
    (0 < scale ->
     length (project rgb' depth scale Km' pose) = positive_depths depth).
Proof.
  intros Hne Hd HK H33 Hpose HH HW Hres Hrgb' Hgrid.
  eexists _, _. cbn zeta.
  rewrite (resized_run _ _ _ _ _ _ _ _ _ _ _ Hne HK H33 HH HW Hres).
  split.
  { apply back_projector_run. constructor; try assumption.
    - cbn [arrays]. apply lookup_insert_eq.
    - now apply adjusted_rectangular. }
  split; [apply fresh_loc_dead |].
  split; [reflexivity |]. split; [reflexivity |].
  intros Hs. unfold project. rewrite length_map. now apply survivors_length.
Qed.

Lemma mismatched_grid_resampled_witness :
  exists K' s',
    let Km' := adjusted Sample.K0 (inject_Z 1 / inject_Z 2)
                 (inject_Z 2 / inject_Z 1) in
    depth_image_to_point_cloud Sample.resize_nearest Sample.rgb12
      Sample.depth21 1000 1%positive identity4 (Some (1, 2)%Z) Sample.store =
      (Ok (project Sample.rgb21 Sample.depth21 1000 Km' identity4), s') /\
    arrays Sample.store !! K' = None /\
    arrays s' = <[K' := Km']> (arrays Sample.store) /\
    files s' = files Sample.store /\
    (0 < 1000 ->
     length (project Sample.rgb21 Sample.depth21 1000 Km' identity4) =
       positive_depths Sample.depth21).
Proof.
  apply (mismatched_grid_resampled Sample.resize_nearest Sample.rgb12
           Sample.rgb21 Sample.depth21 1000 1%positive Sample.K0 identity4
           1 2 Sample.store).
  - discriminate.
  - split; [reflexivity | repeat constructor].
  - reflexivity.
  - split; [reflexivity | repeat constructor].
  - split; [reflexivity | repeat constructor].
  - lia.
  - lia.
  - reflexivity.
  - split; [reflexivity | repeat constructor].
  - reflexivity.
Defined.

(** C1 as stated fails: two images on different grids, and the call
    returns points, with [rgb_size] (the colour image is resampled) and
    without it (the two grids have the same number of pixels and colours
    are paired with depths by position in the flattened arrays). *)
Lemma mismatched_grid_not_rejected :
  shape2 Sample.rgb12 <> shape2 Sample.depth21 /\
  (exists points,
     fst (depth_image_to_point_cloud Sample.resize_nearest Sample.rgb12
            Sample.depth21 1000 1%positive identity4 (Some (1, 2)%Z)
            Sample.store) = Ok points /\
     length points = 2%nat) /\
  (exists points,
     fst (depth_image_to_point_cloud Sample.resize_nearest Sample.rgb12
            Sample.depth21 1000 1%positive identity4 None
            Sample.store) = Ok points /\
     length points = 2%nat).
Proof.
  split; [discriminate |].
  split; eexists; (split; [vm_compute; reflexivity | reflexivity]).
Qed.

(** ** Strings: pieces, separators and numerals *)

#[local] Arguments String.append !s1 s2 : simpl nomatch.


Lemma append_assoc (a b c : string) : (a +:+ b) +:+ c = a +:+ (b +:+ c).
Proof. induction a as [| ch a IH]; cbn; [reflexivity | now rewrite IH]. Qed.

Lemma append_nil_r (a : string) : a +:+ "" = a.
Proof. induction a as [| ch a IH]; cbn; [reflexivity | now rewrite IH]. Qed.

Lemma clean_app a b : clean a -> clean b -> clean (a +:+ b).
Proof. induction a as [| ch a IH]; cbn; [auto | intuition]. Qed.

Lemma clean_free_space s : clean s -> free_of " " s.
Proof. induction s as [| ch s IH]; cbn; [auto | intuition]. Qed.

Lemma clean_free_lf s : clean s -> free_of "010" s.
Proof. induction s as [| ch s IH]; cbn; [auto | intuition]. Qed.

Lemma free_of_app sep a b : free_of sep a -> free_of sep b -> free_of sep (a +:+ b).
Proof. induction a as [| ch a IH]; cbn; [auto | intuition]. Qed.

Lemma split_nonempty sep s : split sep s <> [].
Proof.
  destruct s as [| ch s]; cbn; [discriminate |].
  destruct (ch =? sep)%char; [discriminate |].
  destruct (split sep s); discriminate.
Qed.

Lemma split_free sep s : free_of sep s -> split sep s = [s].
Proof.
  induction s as [| ch s IH]; cbn; [reflexivity |].
  intros [Hc Hs]. apply Ascii.eqb_neq in Hc. rewrite Hc, (IH Hs). reflexivity.
Qed.

(** Splitting at a separator that is there. *)
Lemma split_at sep a b :
  split sep (a +:+ String sep b) = split sep a ++ split sep b.
Proof.
  induction a as [| ch a IH]; cbn.
  - now rewrite Ascii.eqb_refl.
  - destruct (ch =? sep)%char; [now rewrite IH |].
    rewrite IH. pose proof (split_nonempty sep a) as Hne.
    destruct (split sep a); [contradiction | reflexivity].
Qed.

(** A prefix free of the separator stays on the first piece. *)
Lemma split_prefix sep a b :
  free_of sep a ->
  split sep (a +:+ b) =
    (a +:+ hd EmptyString (split sep b)) :: tl (split sep b).
Proof.
  induction a as [| ch a IH]; cbn.
  - intros _. pose proof (split_nonempty sep b).
    destruct (split sep b); [contradiction | reflexivity].
  - intros [Hc Ha]. apply Ascii.eqb_neq in Hc. rewrite Hc, (IH Ha). reflexivity.
Qed.

Lemma split_join sep f fs :
  Forall (free_of sep) (f :: fs) ->
  split sep (String.concat (String sep EmptyString) (f :: fs)) = f :: fs.
Proof.
  revert f. induction fs as [| g fs IH]; intros f Hf.
  - cbn. apply split_free. now inversion Hf.
  - inversion Hf as [| ? ? Hf0 Hfs]; subst.
    change (String.concat (String sep EmptyString) (f :: g :: fs))
      with (f +:+ String sep (String.concat (String sep EmptyString) (g :: fs))).
    rewrite split_at, (split_free _ _ Hf0), (IH g Hfs). reflexivity.
Qed.

Lemma clean_uint d : clean (NilEmpty.string_of_uint d).
Proof. induction d; cbn; repeat split; try discriminate; assumption. Qed.

Lemma clean_str_int z : clean (str_int z).
Proof.
  unfold str_int, NilZero.string_of_int, NilZero.string_of_uint.
  destruct (Z.to_int z) as [d | d]; destruct d; cbn;
    repeat split; try discriminate; apply clean_uint.
Qed.

Lemma str_int_first z : exists ch rest, str_int z = String ch rest.
Proof.
  unfold str_int, NilZero.string_of_int, NilZero.string_of_uint.
  destruct (Z.to_int z) as [d | d]; destruct d; cbn; eauto.
Qed.

Lemma clean_digit n : clean (String (digit n) EmptyString).
Proof.
  unfold digit. pose proof (Z.mod_pos_bound n 10 eq_refl) as Hb.
  assert (Hk : (Z.to_nat (n mod 10) < 10)%nat) by lia.
  revert Hk. generalize (Z.to_nat (n mod 10)). intros k Hk.
  do 10 (destruct k as [| k]; [cbn; repeat split; discriminate |]). lia.
Qed.

Lemma clean_digits6 n : clean (digits6 n).
Proof.
  unfold digits6.
  repeat match goal with
         | |- clean (String (digit ?m) ?r) =>
             change (String (digit m) r) with (String (digit m) EmptyString +:+ r);
             apply clean_app; [apply clean_digit |]
         end.
  exact I.
Qed.

Lemma clean_format_d q : clean (format_d q).
Proof. apply clean_str_int. Qed.

Lemma clean_format_f q : clean (format_f q).
Proof.
  unfold format_f. repeat apply clean_app.
  - destruct (Qltb q 0); cbn; repeat split; discriminate.
  - apply clean_str_int.
  - cbn. repeat split; discriminate.
  - apply clean_digits6.
Qed.

Lemma format_f_first q : exists ch rest, format_f q = String ch rest.
Proof.
  unfold format_f. destruct (Qltb q 0); cbn; [eauto |].
  destruct (str_int_first (round_half_even (Qabs q * 1000000) / 1000000))
    as (ch & rest & ->). cbn. eauto.
Qed.

Lemma lstrip_clean s t : clean s -> nonempty s = true -> lstrip (s +:+ t) = s +:+ t.
Proof.
  destruct s as [| ch s]; [discriminate |]. cbn. intros (Hc & _ & _) _.
  apply Ascii.eqb_neq in Hc. now rewrite Hc.
Qed.

Lemma int_str_str_int z : int_str (str_int z) = Some z.
Proof.
  unfold int_str, str_int. rewrite NilZero.isi.
  - cbn. now rewrite DecimalZ.of_to.
  - destruct z; cbn; try discriminate;
      intros [= E]; now apply DecimalPos.Unsigned.to_uint_nonnil in E.
  - destruct z; cbn; try discriminate;
      intros [= E]; now apply DecimalPos.Unsigned.to_uint_nonnil in E.
Qed.

Lemma trunc_inject_Z z : trunc (inject_Z z) = z.
Proof. unfold trunc. cbn. apply Z.quot_1_r. Qed.

(** ** The writer *)


Lemma concat_nil_cons s ls :
  String.concat "" (s :: ls) = s +:+ String.concat "" ls.
Proof.
  destruct ls; cbn [String.concat]; [now rewrite append_nil_r | reflexivity].
Qed.

Lemma unlines_cons l ls : unlines (l :: ls) = l +:+ String "010" (unlines ls).
Proof.
  unfold unlines. cbn [map]. rewrite concat_nil_cons, append_assoc. reflexivity.
Qed.

Lemma split_unlines ls rest :
  Forall (free_of "010") ls ->
  split "010" (unlines ls +:+ rest) = ls ++ split "010" rest.
Proof.
  induction 1 as [| l ls Hl Hls IH]; [reflexivity |].
  rewrite unlines_cons, append_assoc. cbn [append].
  rewrite split_at, (split_free _ _ Hl), IH. reflexivity.
Qed.

Lemma item_run (point : list Q) i s :
  (i < length point)%nat -> item point i s = (Ok (nth i point 0), s).
Proof.
  intros Hi. unfold item.
  destruct (point !! i) as [x |] eqn:E.
  - now rewrite (nth_lookup_Some _ _ 0 _ E).
  - apply lookup_ge_None in E. lia.
Qed.

Lemma point_format_run p0 p1 p2 p3 p4 p5 rest :
  py_format point_format
    [AFloat p0; AFloat p1; AFloat p2; AFloat p3; AFloat p4; AFloat p5] =
  Ok (point_line (p0 :: p1 :: p2 :: p3 :: p4 :: p5 :: rest) +:+ LF).
Proof.
  unfold point_line, point_fields. cbn [nth String.concat].
  rewrite !append_assoc. reflexivity.
Qed.

Lemma format_loop_run points acc s :
  Forall (fun p => 6 <= length p)%nat points ->
  format_loop points acc s =
    (Ok (acc ++ map (fun p => point_line p +:+ LF) points), s).
Proof.
  intros Hp. revert acc. induction Hp as [| p points Hlen Hp IH]; intros acc.
  - cbn. now rewrite app_nil_r.
  - cbn [format_loop].
    rewrite (bind_ok _ _ _ _ _ (item_run p 0 s ltac:(lia))).
    rewrite (bind_ok _ _ _ _ _ (item_run p 1 s ltac:(lia))).
    rewrite (bind_ok _ _ _ _ _ (item_run p 2 s ltac:(lia))).
    rewrite (bind_ok _ _ _ _ _ (item_run p 3 s ltac:(lia))).
    rewrite (bind_ok _ _ _ _ _ (item_run p 4 s ltac:(lia))).
    rewrite (bind_ok _ _ _ _ _ (item_run p 5 s ltac:(lia))).
    destruct p as [| p0 [| p1 [| p2 [| p3 [| p4 [| p5 rest]]]]]];
      cbn in Hlen; try lia.
    cbn [nth].
    rewrite (bind_lift _ _ _ _ (point_format_run p0 p1 p2 p3 p4 p5 rest)).
    rewrite IH, <- app_assoc. reflexivity.
Qed.

Lemma ply_template_run n body :
  py_format ply_template [AInt (Z.of_nat n); AStr body] =
  Ok (unlines (raw_header n) +:+ "    " +:+ body +:+ LF +:+ "    ").
Proof.
  unfold unlines, raw_header. cbn [map].
  rewrite !concat_nil_cons, !append_assoc. reflexivity.
Qed.

Lemma write_point_cloud_run name points s :
  Forall (fun p => 6 <= length p)%nat points ->
  write_point_cloud name points s =
    (Ok tt,
     mkState (arrays s)
       (<[name := unlines (raw_header (length points)) +:+ "    " +:+
                  unlines (map point_line points) +:+ LF +:+ "    "]>
          (files s))).
Proof.
  intros Hp. unfold write_point_cloud.
  assert (Hbody : String.concat "" (map (fun p => point_line p +:+ LF) points) =
                  unlines (map point_line points)).
  { unfold unlines. now rewrite map_map. }
  rewrite (bind_ok _ _ _ _ _ (format_loop_run points [] s Hp)).
  cbn [app]. rewrite Hbody. unfold file_open_w at 1. unfold bind at 1.
  rewrite (bind_lift _ _ _ _ (ply_template_run _ _)).
  unfold file_write. cbn [arrays files].
  rewrite lookup_insert_eq, insert_insert_eq. reflexivity.
Qed.

Lemma lstrip_raw_header n : map lstrip (raw_header n) = header_lines n.
Proof. reflexivity. Qed.

Lemma nonempty_header_lines n :
  List.filter nonempty (header_lines n) = header_lines n.
Proof. reflexivity. Qed.

Lemma free_of_raw_header n : Forall (free_of "010") (raw_header n).
Proof.
  unfold raw_header. repeat constructor; try (cbn; repeat split; discriminate).
  apply free_of_app; [cbn; repeat split; discriminate |].
  apply clean_free_lf, clean_str_int.
Qed.

Create HintDb fields discriminated.
#[local] Hint Resolve clean_format_f clean_format_d clean_str_int
  clean_free_lf clean_free_space free_of_app : fields.

Lemma point_fields_clean p : Forall clean (point_fields p).
Proof.
  unfold point_fields.
  repeat constructor; auto with fields; discriminate.
Qed.

Lemma point_line_free p : free_of "010" (point_line p).
Proof.
  unfold point_line, point_fields. cbn [String.concat].
  repeat (apply free_of_app;
          [first [ solve [auto with fields]
                 | cbn; repeat split; discriminate ] |]).
  cbn; repeat split; discriminate.
Qed.

Lemma point_line_lstrip p :
  lstrip (point_line p) = point_line p /\ nonempty (point_line p) = true.
Proof.
  unfold point_line, point_fields. cbn [String.concat].
  destruct (format_f_first (nth 0 p 0)) as (ch & rest & E).
  pose proof (clean_format_f (nth 0 p 0)) as Hc. rewrite E in *.
  split; [| reflexivity].
  apply (lstrip_clean (String ch rest)); [exact Hc | reflexivity].
Qed.

Lemma content_lines_points pls :
  Forall (fun l => free_of "010" l /\ lstrip l = l /\ nonempty l = true) pls ->
  List.filter nonempty
    (map lstrip (split "010" ("    " +:+ unlines pls +:+ LF +:+ "    "))) = pls.
Proof.
  intros Hp. rewrite split_prefix by (cbn; repeat split; discriminate).
  rewrite split_unlines by (eapply Forall_impl; [exact Hp | now intros l [? _]]).
  change (split "010" (LF +:+ "    ")) with ["" ; "    "]%string.
  destruct Hp as [| l pls (Hf & Hl & Hn) Hp]; [reflexivity |].
  cbn [app hd tl map]. change (lstrip ("    " +:+ l)) with (lstrip l).
  rewrite Hl. cbn [List.filter]. rewrite Hn. f_equal.
  induction Hp as [| l' pls' (Hf' & Hl' & Hn') Hp' IH]; [reflexivity |].
  cbn [app map List.filter]. rewrite Hl', Hn'. now f_equal.
Qed.

Lemma content_lines_written n points :
  content_lines (unlines (raw_header n) +:+ "    " +:+
                 unlines (map point_line points) +:+ LF +:+ "    ") =
  header_lines n ++ map point_line points.
Proof.
  unfold content_lines.
  rewrite split_unlines by apply free_of_raw_header.
  rewrite map_app, List.filter_app, lstrip_raw_header, nonempty_header_lines.
  f_equal. apply content_lines_points.
  apply Forall_forall. intros l Hl. apply list_elem_of_In, in_map_iff in Hl as (p & <- & _).
  split; [apply point_line_free | apply point_line_lstrip].
Qed.

Lemma declared_header n :
  declared_properties (header_lines n) =
    [ ("float", "x"); ("float", "y"); ("float", "z"); ("uchar", "blue");
      ("uchar", "green"); ("uchar", "red"); ("uchar", "alpha") ]%string.
Proof.
  unfold declared_properties, header_lines. cbn [flat_map].
  assert (E : fields ("element vertex " +:+ str_int (Z.of_nat n)) =
              ["element"; "vertex"; str_int (Z.of_nat n)]%string).
  { unfold fields.
    change ("element vertex " +:+ str_int (Z.of_nat n))%string
      with ("element" +:+ String " " ("vertex" +:+ String " " (str_int (Z.of_nat n)))).
    rewrite !split_at.
    rewrite (split_free " " (str_int (Z.of_nat n)))
      by apply clean_free_space, clean_str_int.
    reflexivity. }
  rewrite E. reflexivity.
Qed.

Lemma fields_point_line p : fields (point_line p) = point_fields p.
Proof.
  unfold fields, point_line. apply (split_join " ").
  eapply Forall_impl; [apply point_fields_clean | apply clean_free_space].
Qed.

(** C8: for a list of points of six values each, the writer leaves a file
    made of the indented header lines, four spaces, the lines of the
    points, an empty line and four spaces.  Its lines that are not blank,
    indentation apart, are the header (x, y, z declared float, then four
    uchar properties, and the number of points as the vertex count)
    followed by one line per point, in order; the line of a point splits
    at spaces into six values (three printed by %f, three by %d) and a
    last field 0, and a colour value that is an integer from 0 to 255 is
    printed as that integer. *)
Theorem write_point_cloud_file name points s :
  Forall (fun p => 6 <= length p)%nat points ->
  exists text,
    write_point_cloud name points s =
      (Ok tt, mkState (arrays s) (<[name := text]> (files s))) /\
    text = unlines (raw_header (length points)) +:+ "    " +:+
           unlines (map point_line points) +:+ LF +:+ "    " /\
    content_lines text = header_lines (length points) ++ map point_line points /\
    header_lines (length points) !! 2%nat =
      Some ("element vertex " +:+ str_int (Z.of_nat (length points))) /\
    int_str (str_int (Z.of_nat (length points))) = Some (Z.of_nat (length points)) /\
    declared_properties (header_lines (length points)) =
      [ ("float", "x"); ("float", "y"); ("float", "z"); ("uchar", "blue");
        ("uchar", "green"); ("uchar", "red"); ("uchar", "alpha") ]%string /\
    Forall (fun p =>
      fields (point_line p) =
        [ format_f (nth 0 p 0); format_f (nth 1 p 0); format_f (nth 2 p 0);
          format_d (nth 3 p 0); format_d (nth 4 p 0); format_d (nth 5 p 0);
          "0"%string ] /\
      forall i c, (3 <= i < 6)%nat -> p !! i = Some (inject_Z c) ->
        (0 <= c <= 255)%Z ->
        exists f z, fields (point_line p) !! i = Some f /\
                    int_str f = Some z /\ z = c /\ (0 <= z <= 255)%Z) points.
Proof.
  intros Hp. eexists. split; [apply (write_point_cloud_run name points s Hp) |].
  split; [reflexivity |].
  split; [apply content_lines_written |].
  split; [reflexivity |].
  split; [apply int_str_str_int |].
  split; [apply declared_header |].
  apply Forall_forall. intros p _. rewrite fields_point_line.
  split; [reflexivity |].
  intros i c Hi Hc Hr. exists (str_int c), c.
  split; [| split; [apply int_str_str_int | split; [reflexivity | exact Hr]]].
  apply (nth_lookup_Some _ _ 0) in Hc.
  unfold point_fields, format_d.
  destruct i as [| [| [| [| [| [| i]]]]]]; try lia;
    rewrite Hc, trunc_inject_Z; reflexivity.
Qed.

Lemma write_point_cloud_file_witness :
  exists text,
    write_point_cloud "frame.ply" Sample.cloud Sample.store =
      (Ok tt, mkState (arrays Sample.store)
                (<["frame.ply"%string := text]> (files Sample.store))) /\
    text = unlines (raw_header 2) +:+ "    " +:+
           unlines (map point_line Sample.cloud) +:+ LF +:+ "    " /\
    content_lines text = header_lines 2 ++ map point_line Sample.cloud /\
    header_lines 2 !! 2%nat = Some ("element vertex " +:+ str_int 2) /\
    int_str (str_int 2) = Some 2%Z /\
    declared_properties (header_lines 2) =
      [ ("float", "x"); ("float", "y"); ("float", "z"); ("uchar", "blue");
        ("uchar", "green"); ("uchar", "red"); ("uchar", "alpha") ]%string /\
    Forall (fun p =>
      fields (point_line p) =
        [ format_f (nth 0 p 0); format_f (nth 1 p 0); format_f (nth 2 p 0);
          format_d (nth 3 p 0); format_d (nth 4 p 0); format_d (nth 5 p 0);
          "0"%string ] /\
      forall i c, (3 <= i < 6)%nat -> p !! i = Some (inject_Z c) ->
        (0 <= c <= 255)%Z ->
        exists f z, fields (point_line p) !! i = Some f /\
                    int_str f = Some z /\ z = c /\ (0 <= z <= 255)%Z)
      Sample.cloud.
Proof.
  apply (write_point_cloud_file "frame.ply" Sample.cloud Sample.store).
  repeat constructor.
Defined.

Lemma project_pixel_length rgb depth scale Km pose p :
  np.rectangular 4 4 pose ->
  length (project_pixel rgb depth scale Km pose p) = 6%nat.
Proof.
  intros Hpose. destruct (rectangular44 _ Hpose) as (r0 & r1 & r2 & r3 & -> & _).
  reflexivity.
Qed.

(** C10: for the points the back-projector returns on a frame, the
    written header declares the byte properties in the order blue, green,
    red, alpha, in fourth to seventh place, while the line of the point of
    a pixel stored as (blue, green, red) carries red in its fourth field,
    green in its fifth and blue in its sixth: the field the header calls
    blue holds the red channel and the field it calls red the blue one. *)
Theorem header_order_against_data_order
    cv2_resize rgb depth scale K Km pose rgb_size name s :
  frame s rgb depth K Km pose ->
  exists points text,
    depth_image_to_point_cloud cv2_resize rgb depth scale K pose rgb_size s =
      (Ok points, s) /\
    write_point_cloud name points s =
      (Ok tt, mkState (arrays s) (<[name := text]> (files s))) /\
    content_lines text = header_lines (length points) ++ map point_line points /\
    map snd (declared_properties (header_lines (length points))) =
      ["x"; "y"; "z"; "blue"; "green"; "red"; "alpha"]%string /\
    forall k u v blue green red,
      survivors depth scale !! k = Some (u, v) ->
      pixel_at rgb v u = Some (mkSample blue green red) ->
      exists line,
        map point_line points !! k = Some line /\
        fields line !! 3%nat = Some (str_int red) /\
        fields line !! 4%nat = Some (str_int green) /\
        fields line !! 5%nat = Some (str_int blue).
Proof.
  intros Hf. eexists _, _.
  split; [apply (back_projector_run _ _ _ _ _ _ _ _ _ Hf) |].
  split.
  { apply write_point_cloud_run. unfold project. apply Forall_forall.
    intros p Hp. apply list_elem_of_In, in_map_iff in Hp as (q & <- & _).
    rewrite project_pixel_length; [lia | apply Hf]. }
  split; [apply content_lines_written |].
  split; [now rewrite declared_header |].
  intros k u v blue green red E Hc.
  eexists. split.
  { rewrite list_lookup_fmap, (project_lookup _ _ _ _ _ _ _ E). reflexivity. }
  rewrite fields_point_line.
  destruct (rectangular44 _ (frame_pose _ _ _ _ _ _ Hf))
    as (r0 & r1 & r2 & r3 & -> & _).
  unfold point_fields, project_pixel, colour.
  cbn [take map app fst snd nth]. rewrite Hc. cbn [c0 c1 c2 nth].
  unfold format_d. rewrite !trunc_inject_Z. repeat split; reflexivity.
Qed.

Lemma header_order_against_data_order_witness :
  exists points text,
    depth_image_to_point_cloud Sample.no_resize Sample.rgb22 Sample.depth22
      1000 1%positive identity4 None Sample.store = (Ok points, Sample.store) /\
    write_point_cloud "frame.ply" points Sample.store =
      (Ok tt, mkState (arrays Sample.store)
                (<["frame.ply"%string := text]> (files Sample.store))) /\
    content_lines text = header_lines (length points) ++ map point_line points /\
    map snd (declared_properties (header_lines (length points))) =
      ["x"; "y"; "z"; "blue"; "green"; "red"; "alpha"]%string /\
    forall k u v blue green red,
      survivors Sample.depth22 1000 !! k = Some (u, v) ->
      pixel_at Sample.rgb22 v u = Some (mkSample blue green red) ->
      exists line,
        map point_line points !! k = Some line /\
        fields line !! 3%nat = Some (str_int red) /\
        fields line !! 4%nat = Some (str_int green) /\
        fields line !! 5%nat = Some (str_int blue).
Proof.
  exact (header_order_against_data_order Sample.no_resize Sample.rgb22
           Sample.depth22 1000 1%positive Sample.K0 identity4 None
           "frame.ply" Sample.store sample_frame).
Defined.

(** * Further properties of the two scripts *)

(** ** The adjuster: errors and composition *)

(** X1: when the height or the width of the original resolution is zero
    the adjuster raises ZeroDivisionError before it copies anything: the
    store is the one it was called in. *)
Theorem adjust_zero_dimension K H0 W0 target_size s :
  H0 = 0%Z \/ W0 = 0%Z ->
  adjust_intrinsics_for_resolution K (H0, W0) target_size s =
    (Raise ZeroDivisionError, s).
Proof.
  intros Hz. unfold adjust_intrinsics_for_resolution, truediv. cbn [fst snd].
  destruct (Z.eqb_spec W0 0) as [-> | HW]; [reflexivity |].
  destruct Hz as [-> | ->]; [reflexivity | contradiction].
Qed.

Lemma adjust_zero_dimension_witness :
  adjust_intrinsics_for_resolution 1%positive (0, 640)%Z (240, 320)%Z
    Sample.store = (Raise ZeroDivisionError, Sample.store).
Proof.
  apply (adjust_zero_dimension 1%positive 0 640 (240, 320)%Z Sample.store).
  left. reflexivity.
Defined.

Lemma adjusted_twice m a b c d e f :
  np.rectangular 3 3 m ->
  a <> 0%Z -> b <> 0%Z -> c <> 0%Z -> d <> 0%Z ->
  matrix_eq
    (adjusted (adjusted m (inject_Z b / inject_Z a) (inject_Z d / inject_Z c))
       (inject_Z e / inject_Z b) (inject_Z f / inject_Z d))
    (adjusted m (inject_Z e / inject_Z a) (inject_Z f / inject_Z c)).
Proof.
  intros H33 Ha Hb Hc Hd.
  apply inject_Z_nonzero in Ha, Hb, Hc, Hd.
  entries33 H33. unfold matrix_eq, adjusted. cbn.
  repeat constructor; try reflexivity; field; auto.
Qed.

(** X2: adjusting from resolution A to B and the result from B to C
    gives, entry by entry and as rationals, the matrix that adjusting
    from A to C gives; the dimensions of A and B are not zero. *)
Theorem adjust_intrinsics_compose K Km HA WA HB WB HC WC s :
  arrays s !! K = Some Km -> np.rectangular 3 3 Km ->
  HA <> 0%Z -> WA <> 0%Z -> HB <> 0%Z -> WB <> 0%Z ->
  exists K1 s1 K2 s2 K3 s3 M2 M3,
    adjust_intrinsics_for_resolution K (HA, WA) (HB, WB) s = (Ok K1, s1) /\
    adjust_intrinsics_for_resolution K1 (HB, WB) (HC, WC) s1 = (Ok K2, s2) /\
    adjust_intrinsics_for_resolution K (HA, WA) (HC, WC) s = (Ok K3, s3) /\
    arrays s2 !! K2 = Some M2 /\ arrays s3 !! K3 = Some M3 /\
    matrix_eq M2 M3.
Proof.
  intros HK H33 HHA HWA HHB HWB.
  eexists _, _, _, _, _, _, _, _. split.
  { apply (adjust_run _ _ _ _ _ _ _ HK H33); assumption. }
  split.
  { apply adjust_run with (Km := adjusted Km (inject_Z WB / inject_Z WA)
                                   (inject_Z HB / inject_Z HA)); try assumption.
    - cbn [arrays]. apply lookup_insert_eq.
    - now apply adjusted_rectangular. }
  split.
  { apply (adjust_run _ _ _ _ _ _ _ HK H33); assumption. }
  split; [cbn [arrays]; apply lookup_insert_eq |].
  split; [cbn [arrays]; apply lookup_insert_eq |].
  apply adjusted_twice; assumption.
Qed.

Lemma adjust_intrinsics_compose_witness :
  exists K1 s1 K2 s2 K3 s3 M2 M3,
    adjust_intrinsics_for_resolution 1%positive (480, 640)%Z (192, 256)%Z
      Sample.store = (Ok K1, s1) /\
    adjust_intrinsics_for_resolution K1 (192, 256)%Z (96, 128)%Z s1 = (Ok K2, s2) /\
    adjust_intrinsics_for_resolution 1%positive (480, 640)%Z (96, 128)%Z
      Sample.store = (Ok K3, s3) /\
    arrays s2 !! K2 = Some M2 /\ arrays s3 !! K3 = Some M3 /\
    matrix_eq M2 M3.
Proof.
  apply (adjust_intrinsics_compose 1%positive Sample.K0 480 640 192 256 96 128
           Sample.store).
  - reflexivity.
  - split; [reflexivity | repeat constructor].
  - lia.
  - lia.
  - lia.
  - lia.
Defined.

(** X3: adjusting to the resolution the matrix already has returns a
    copy whose entries equal, as rationals, those of K. *)
Theorem adjust_intrinsics_same_resolution K Km H0 W0 s :
  arrays s !! K = Some Km -> np.rectangular 3 3 Km ->
  H0 <> 0%Z -> W0 <> 0%Z ->
  exists K' s' Km',
    adjust_intrinsics_for_resolution K (H0, W0) (H0, W0) s = (Ok K', s') /\
    arrays s' !! K' = Some Km' /\ K' <> K /\
    matrix_eq Km' Km.
Proof.
  intros HK H33 HH HW.
  eexists _, _, _. split; [apply (adjust_run _ _ _ _ _ _ _ HK H33 HH HW) |].
  split; [cbn [arrays]; apply lookup_insert_eq |].
  split.
  { intros E. pose proof (fresh_loc_dead (arrays s)) as Hd. congruence. }
  apply inject_Z_nonzero in HH, HW.
  entries33 H33. unfold matrix_eq, adjusted. cbn.
  repeat constructor; try reflexivity; field; auto.
Qed.

Lemma adjust_intrinsics_same_resolution_witness :
  exists K' s' Km',
    adjust_intrinsics_for_resolution 1%positive (480, 640)%Z (480, 640)%Z
      Sample.store = (Ok K', s') /\
    arrays s' !! K' = Some Km' /\ K' <> 1%positive /\
    matrix_eq Km' Sample.K0.
Proof.
  apply (adjust_intrinsics_same_resolution 1%positive Sample.K0 480 640
           Sample.store).
  - reflexivity.
  - split; [reflexivity | repeat constructor].
  - lia.
  - lia.
Defined.

(** ** The back-projector: edges and errors *)

(** The call up to the camera-space stack: what is left to run is the
    product with the pose and the colours. *)
Lemma camera_stack_run cv2_resize rgb depth scale K Km pose s :
  well_shaped depth -> arrays s !! K = Some Km -> np.rectangular 3 3 Km ->
  depth_image_to_point_cloud cv2_resize rgb depth scale K pose None s =
  (position <- lift (npv.dot pose
      [ map (fun p => nth 0 (back_project depth scale Km p) 0) (survivors depth scale);
        map (fun p => nth 1 (back_project depth scale Km p) 0) (survivors depth scale);
        map (fun p => nth 2 (back_project depth scale Km p) 0) (survivors depth scale);
        map (fun _ => 1) (survivors depth scale) ]) ;;
   B <- lift (npv.boolean_index (npv.ravel (map (map c0) (pixels rgb)))
                (map (survives depth scale)
                   (row_major (height depth) (width depth)))) ;;
   G <- lift (npv.boolean_index (npv.ravel (map (map c1) (pixels rgb)))
                (map (survives depth scale)
                   (row_major (height depth) (width depth)))) ;;
   R <- lift (npv.boolean_index (npv.ravel (map (map c2) (pixels rgb)))
                (map (survives depth scale)
                   (row_major (height depth) (width depth)))) ;;
   stacked <- lift (npv.vstack (take 3 position ++
                      [map inject_Z R; map inject_Z G; map inject_Z B])) ;;
   ret (npv.transpose stacked)) s.
Proof.
  intros Hdepth HK H33.
  unfold depth_image_to_point_cloud.
  rewrite (bind_ok (ret _) _ s _ s eq_refl). cbn [fst snd].
  rewrite (bind_ok _ _ _ _ _ (get_intrinsic K Km 0 2 s HK H33 ltac:(lia) ltac:(lia))).
  rewrite (bind_ok _ _ _ _ _ (get_intrinsic K Km 0 0 s HK H33 ltac:(lia) ltac:(lia))).
  rewrite (bind_ok _ _ _ _ _ (get_intrinsic K Km 1 2 s HK H33 ltac:(lia) ltac:(lia))).
  rewrite (bind_ok _ _ _ _ _ (get_intrinsic K Km 1 1 s HK H33 ltac:(lia) ltac:(lia))).
  rewrite meshgrid_u, meshgrid_v.
  rewrite (pixels_tabulate 0%Z depth Hdepth), map_tabulate.
  rewrite !map2_tabulate, !ravel_tabulate, map_map.
  set (grid := row_major (height depth) (width depth)).
  rewrite (bind_lift _ _ _ _ (boolean_index_maps _ _ grid)).
  rewrite (bind_lift _ _ _ _ (boolean_index_maps _ _ grid)).
  rewrite (bind_lift _ _ _ _ (boolean_index_maps _ _ grid)).
  rewrite length_map, ones_map.
  rewrite (bind_lift _ _ _ _ (vstack4 _ _ _ _ _)).
  reflexivity.
Qed.

Lemma survivors_none depth scale :
  (forall p, In p (row_major (height depth) (width depth)) ->
             survives depth scale p = false) ->
  survivors depth scale = [].
Proof.
  intros Hnone. unfold survivors.
  induction (row_major (height depth) (width depth)) as [| p l IH];
    [reflexivity |].
  cbn. rewrite (Hnone p) by now left. apply IH. intros q Hq. apply Hnone. now right.
Qed.

Lemma pixel_at_elem {A} (img : image A) u v x :
  pixel_at img v u = Some x -> exists row, In row (pixels img) /\ In x row.
Proof.
  unfold pixel_at. destruct (pixels img !! v) as [row |] eqn:E; [| discriminate].
  cbn. intros Hx. exists row.
  split; apply list_elem_of_In; eapply list_elem_of_lookup_2; eauto.
Qed.

(** The stored depth of a pixel of the grid satisfies what every stored
    depth satisfies. *)
Lemma grid_depth (P : Z -> Prop) depth p :
  well_shaped depth ->
  Forall (Forall P) (pixels depth) ->
  In p (row_major (height depth) (width depth)) ->
  P (default 0%Z (pixel_at depth (snd p) (fst p))).
Proof.
  intros Hd HP Hp. destruct p as [u v]. apply row_major_In in Hp as [Hu Hv].
  destruct (pixel_at_Some depth u v Hd Hu Hv) as [d E]. cbn [fst snd].
  rewrite E. cbn. destruct (pixel_at_elem _ _ _ _ E) as (row & Hrow & Hin).
  rewrite Forall_forall in HP. apply list_elem_of_In in Hrow.
  specialize (HP row Hrow). rewrite Forall_forall in HP.
  apply HP. now apply list_elem_of_In.
Qed.

(** X4: a depth image that is zero everywhere gives the empty list of
    points, and no error, whatever the scale factor. *)
Theorem zero_depth_no_points cv2_resize rgb depth scale K Km pose rgb_size s :
  frame s rgb depth K Km pose ->
  Forall (Forall (fun d => d = 0%Z)) (pixels depth) ->
  depth_image_to_point_cloud cv2_resize rgb depth scale K pose rgb_size s =
    (Ok [], s).
Proof.
  intros Hf Hzero. rewrite (back_projector_run _ _ _ _ _ _ _ _ _ Hf).
  unfold project. rewrite survivors_none; [reflexivity |].
  intros p Hp. unfold survives, real_depth.
  rewrite (grid_depth (fun d => d = 0%Z) depth p (frame_depth _ _ _ _ _ _ Hf) Hzero Hp).
  apply not_true_iff_false. rewrite Qltb_lt. apply Qle_not_lt.
  unfold Qdiv. rewrite Qmult_0_l. apply Qle_refl.
Qed.

Lemma zero_depth_no_points_witness :
  depth_image_to_point_cloud Sample.no_resize Sample.rgb22 Sample.dark22 1000
    1%positive identity4 None Sample.store = (Ok [], Sample.store).
Proof.
  apply (zero_depth_no_points Sample.no_resize Sample.rgb22 Sample.dark22 1000
           1%positive Sample.K0 identity4 None Sample.store).
  - constructor; try reflexivity; split; try reflexivity; repeat constructor.
  - repeat constructor.
Defined.

(** X5: with a negative scale factor, on depth samples that are not
    negative (they are unsigned), no pixel passes the filter: the call
    returns the empty list and raises nothing. *)
Theorem negative_scale_no_points
    cv2_resize rgb depth scale K Km pose rgb_size s :
  frame s rgb depth K Km pose ->
  scale < 0 ->
  Forall (Forall (fun d => (0 <= d)%Z)) (pixels depth) ->
  depth_image_to_point_cloud cv2_resize rgb depth scale K pose rgb_size s =
    (Ok [], s).
Proof.
  intros Hf Hs Hnn. rewrite (back_projector_run _ _ _ _ _ _ _ _ _ Hf).
  unfold project. rewrite survivors_none; [reflexivity |].
  intros p Hp. unfold survives, real_depth.
  pose proof (grid_depth (fun d => (0 <= d)%Z) depth p
                (frame_depth _ _ _ _ _ _ Hf) Hnn Hp) as Hd.
  cbn beta in Hd. set (d := default 0%Z _) in *.
  apply not_true_iff_false. rewrite Qltb_lt. apply Qle_not_lt.
  assert (Hd' : 0 <= inject_Z d) by (change 0 with (inject_Z 0); now rewrite <- Zle_Qle).
  assert (Hq : inject_Z d / scale * scale == inject_Z d).
  { field. intros E. rewrite E in Hs. discriminate. }
  nra.
Qed.

Lemma negative_scale_no_points_witness :
  depth_image_to_point_cloud Sample.no_resize Sample.rgb22 Sample.depth22
    (-1000) 1%positive identity4 None Sample.store = (Ok [], Sample.store).
Proof.
  apply (negative_scale_no_points Sample.no_resize Sample.rgb22 Sample.depth22
           (-1000) 1%positive Sample.K0 identity4 None Sample.store).
  - exact sample_frame.
  - reflexivity.
  - repeat constructor; discriminate.
Defined.

Lemma ravel_channel_length (ch : sample -> Z) rgb :
  well_shaped rgb ->
  length (npv.ravel (map (map ch) (pixels rgb))) = (height rgb * width rgb)%nat.
Proof.
  intros Hrgb. rewrite (pixels_tabulate (mkSample 0 0 0) rgb Hrgb).
  now rewrite map_tabulate, ravel_tabulate, length_map, row_major_length.
Qed.

(** X6: without [rgb_size], a colour image whose number of pixels
    differs from that of the depth image makes the call raise IndexError,
    at the first colour lookup; the store is left as it was. *)
Theorem pixel_count_mismatch_raises cv2_resize rgb depth scale K Km pose s :
  well_shaped rgb -> well_shaped depth ->
  arrays s !! K = Some Km -> np.rectangular 3 3 Km -> np.rectangular 4 4 pose ->
  (height rgb * width rgb <> height depth * width depth)%nat ->
  depth_image_to_point_cloud cv2_resize rgb depth scale K pose None s =
    (Raise IndexError, s).
Proof.
  intros Hrgb Hdepth HK H33 Hpose Hne.
  rewrite (camera_stack_run _ _ _ _ _ _ _ _ Hdepth HK H33).
  destruct (rectangular44 _ Hpose) as (r0 & r1 & r2 & r3 & -> & L0 & L1 & L2 & L3).
  rewrite (bind_lift _ _ _ _ (dot4 [r0; r1; r2; r3] _ _ _ _ _
             ltac:(repeat constructor; assumption))).
  apply bind_raise. unfold lift, npv.boolean_index.
  rewrite (ravel_channel_length c0 rgb Hrgb), length_map, row_major_length.
  destruct (decide _) as [E | _]; [contradiction | reflexivity].
Qed.

Lemma pixel_count_mismatch_raises_witness :
  depth_image_to_point_cloud Sample.no_resize Sample.rgb12 Sample.depth22 1000
    1%positive identity4 None Sample.store = (Raise IndexError, Sample.store).
Proof.
  apply (pixel_count_mismatch_raises Sample.no_resize Sample.rgb12
           Sample.depth22 1000 1%positive Sample.K0 identity4 Sample.store).
  - split; [reflexivity | repeat constructor].
  - split; [reflexivity | repeat constructor].
  - reflexivity.
  - split; [reflexivity | repeat constructor].
  - split; [reflexivity | repeat constructor].
  - cbn. lia.
Defined.

(** X7: a pose with a row that does not hold four values makes the call
    raise ValueError, at the product with the camera-space points and
    before any colour is read; this is so on images of one grid and also
    without [rgb_size]. *)
Theorem malformed_pose_raises cv2_resize rgb depth scale K Km pose rgb_size s :
  well_shaped depth ->
  arrays s !! K = Some Km -> np.rectangular 3 3 Km ->
  shape2 rgb = shape2 depth \/ rgb_size = None ->
  Exists (fun row => length row <> 4%nat) pose ->
  depth_image_to_point_cloud cv2_resize rgb depth scale K pose rgb_size s =
    (Raise ValueError, s).
Proof.
  intros Hdepth HK H33 Hsame Hbad.
  assert (E : depth_image_to_point_cloud cv2_resize rgb depth scale K pose rgb_size =
              depth_image_to_point_cloud cv2_resize rgb depth scale K pose None).
  { destruct Hsame as [Hg | ->]; [now apply same_grid_no_adjust | reflexivity]. }
  rewrite E, (camera_stack_run _ _ _ _ _ _ _ _ Hdepth HK H33).
  apply bind_raise. unfold lift, npv.dot. cbn [length].
  replace (forallb _ pose) with false; [reflexivity |].
  symmetry. apply not_true_iff_false. intros Hall.
  rewrite forallb_forall in Hall. apply Exists_exists in Hbad as (row & Hin & Hlen).
  apply Hlen, Nat.eqb_eq, Hall. now apply list_elem_of_In.
Qed.

Lemma malformed_pose_raises_witness :
  depth_image_to_point_cloud Sample.no_resize Sample.rgb22 Sample.depth22 1000
    1%positive [[1; 0; 0]; [0; 1; 0]; [0; 0; 1]] None Sample.store =
    (Raise ValueError, Sample.store).
Proof.
  apply (malformed_pose_raises Sample.no_resize Sample.rgb22 Sample.depth22
           1000 1%positive Sample.K0 [[1; 0; 0]; [0; 1; 0]; [0; 0; 1]] None
           Sample.store).
  - split; [reflexivity | repeat constructor].
  - reflexivity.
  - split; [reflexivity | repeat constructor].
  - left. reflexivity.
  - constructor. cbn. lia.
Defined.

(** X8: with the identity pose the position of the point of a pixel
    (u, v) that passes the filter is its camera-space position:
    ((u - cx) Z / fx, (v - cy) Z / fy, Z) with Z = d / scale for the
    stored depth d, as rationals; fx, fy and the scale are not zero. *)
Theorem identity_pose_camera_space cv2_resize rgb depth scale K Km rgb_size s :
  frame s rgb depth K Km identity4 ->
  ~ scale == 0 -> ~ intrinsic Km 0 0 == 0 -> ~ intrinsic Km 1 1 == 0 ->
  exists points,
    depth_image_to_point_cloud cv2_resize rgb depth scale K identity4 rgb_size s =
      (Ok points, s) /\
    forall k u v, survivors depth scale !! k = Some (u, v) ->
      exists d x y z r g b,
        pixel_at depth v u = Some d /\
        points !! k = Some [x; y; z; r; g; b] /\
        z == inject_Z d / scale /\
        x == (inject_Z (Z.of_nat u) - intrinsic Km 0 2) * (inject_Z d / scale)
               / intrinsic Km 0 0 /\
        y == (inject_Z (Z.of_nat v) - intrinsic Km 1 2) * (inject_Z d / scale)
               / intrinsic Km 1 1.
Proof.
  intros Hf Hs Hfx Hfy. eexists.
  split; [apply (back_projector_run _ _ _ _ _ _ _ _ _ Hf) |].
  intros k u v E.
  assert (Hin : In (u, v) (row_major (height depth) (width depth))).
  { apply list_elem_of_lookup_2, list_elem_of_In in E.
    unfold survivors in E. now apply filter_In in E as [E _]. }
  apply row_major_In in Hin as [Hu Hv].
  destruct (pixel_at_Some depth u v (frame_depth _ _ _ _ _ _ Hf) Hu Hv) as [d Hd].
  rewrite (project_lookup _ _ _ _ _ _ _ E).
  unfold project_pixel, back_project, colour, real_depth, identity4.
  cbn [take map app fst snd]. rewrite Hd. cbn [default].
  eexists d, _, _, _, _, _, _. split; [reflexivity |].
  split; [reflexivity |].
  rewrite inner_e0, inner_e1, inner_e2. repeat split; reflexivity.
Qed.

Lemma identity_pose_camera_space_witness :
  exists points,
    depth_image_to_point_cloud Sample.no_resize Sample.rgb22 Sample.depth22
      1000 1%positive identity4 None Sample.store = (Ok points, Sample.store) /\
    forall k u v, survivors Sample.depth22 1000 !! k = Some (u, v) ->
      exists d x y z r g b,
        pixel_at Sample.depth22 v u = Some d /\
        points !! k = Some [x; y; z; r; g; b] /\
        z == inject_Z d / 1000 /\
        x == (inject_Z (Z.of_nat u) - intrinsic Sample.K0 0 2) * (inject_Z d / 1000)
               / intrinsic Sample.K0 0 0 /\
        y == (inject_Z (Z.of_nat v) - intrinsic Sample.K0 1 2) * (inject_Z d / 1000)
               / intrinsic Sample.K0 1 1.
Proof.
  apply (identity_pose_camera_space Sample.no_resize Sample.rgb22
           Sample.depth22 1000 1%positive Sample.K0 None Sample.store).
  - exact sample_frame.
  - discriminate.
  - discriminate.
  - discriminate.
Defined.

(** X9: the fourth row of the pose has no part in the result: two poses
    with the same first three rows give the same points. *)
Theorem pose_last_row_ignored
    cv2_resize rgb depth scale K Km r0 r1 r2 last last' rgb_size s :
  frame s rgb depth K Km [r0; r1; r2; last] ->
  length last' = 4%nat ->
  depth_image_to_point_cloud cv2_resize rgb depth scale K [r0; r1; r2; last']
    rgb_size s =
  depth_image_to_point_cloud cv2_resize rgb depth scale K [r0; r1; r2; last]
    rgb_size s.
Proof.
  intros Hf Hlast.
  assert (Hf' : frame s rgb depth K Km [r0; r1; r2; last']).
  { destruct Hf as [? ? ? ? ? [Hl Hrows]]. constructor; try assumption.
    split; [reflexivity |].
    inversion Hrows as [| ? ? H0 Hr1]; subst.
    inversion Hr1 as [| ? ? H1 Hr2]; subst.
    inversion Hr2 as [| ? ? H2 _]; subst.
    repeat constructor; assumption. }
  rewrite (back_projector_run _ _ _ _ _ _ _ _ _ Hf).
  rewrite (back_projector_run _ _ _ _ _ _ _ _ _ Hf').
  reflexivity.
Qed.

Lemma pose_last_row_ignored_witness :
  depth_image_to_point_cloud Sample.no_resize Sample.rgb22 Sample.depth22 1000
    1%positive [[1; 0; 0; 0]; [0; 1; 0; 0]; [0; 0; 1; 0]; [7; 7; 7; 7]] None
    Sample.store =
  depth_image_to_point_cloud Sample.no_resize Sample.rgb22 Sample.depth22 1000
    1%positive [[1; 0; 0; 0]; [0; 1; 0; 0]; [0; 0; 1; 0]; [0; 0; 0; 1]] None
    Sample.store.
Proof.
  apply (pose_last_row_ignored Sample.no_resize Sample.rgb22 Sample.depth22
           1000 1%positive Sample.K0 [1; 0; 0; 0] [0; 1; 0; 0] [0; 0; 1; 0]
           [0; 0; 0; 1] [7; 7; 7; 7] None Sample.store).
  - exact sample_frame.
  - reflexivity.
Defined.


(** X10: on a frame whose colour samples are unsigned 8 bit values,
    every returned point has six components, the last three of which are
    integers from 0 to 255. *)
Theorem points_are_coloured cv2_resize rgb depth scale K Km pose rgb_size s :
  frame s rgb depth K Km pose ->
  Forall (Forall uint8_sample) (pixels rgb) ->
  exists points,
    depth_image_to_point_cloud cv2_resize rgb depth scale K pose rgb_size s =
      (Ok points, s) /\
    Forall (fun p => exists x y z r g b,
              p = [x; y; z; inject_Z r; inject_Z g; inject_Z b] /\
              uint8 r /\ uint8 g /\ uint8 b) points.
Proof.
  intros Hf H8. eexists.
  split; [apply (back_projector_run _ _ _ _ _ _ _ _ _ Hf) |].
  apply Forall_forall. intros p Hp.
  apply list_elem_of_In, in_map_iff in Hp as ([u v] & <- & Hq).
  unfold survivors in Hq. apply filter_In in Hq as [Hq _].
  apply row_major_In in Hq as [Hu Hv].
  destruct Hf as [Hrgb Hdepth Hgrid HK H33 Hpose].
  injection Hgrid as Hh Hw. rewrite <- Hh in Hv. rewrite <- Hw in Hu.
  destruct (pixel_at_Some rgb u v Hrgb Hu Hv) as [c Hc].
  destruct (pixel_at_elem _ _ _ _ Hc) as (row & Hrow & Hin).
  rewrite Forall_forall in H8. apply list_elem_of_In in Hrow.
  specialize (H8 row Hrow). rewrite Forall_forall in H8.
  apply list_elem_of_In in Hin. destruct (H8 c Hin) as (Hb & Hg & Hr).
  destruct (rectangular44 _ Hpose) as (r0 & r1 & r2 & r3 & -> & _).
  unfold project_pixel, colour. cbn [take map app fst snd]. rewrite Hc.
  cbn [default]. eexists _, _, _, _, _, _. split; [reflexivity |]. auto.
Qed.

Lemma points_are_coloured_witness :
  exists points,
    depth_image_to_point_cloud Sample.no_resize Sample.rgb22 Sample.depth22
      1000 1%positive identity4 None Sample.store = (Ok points, Sample.store) /\
    Forall (fun p => exists x y z r g b,
              p = [x; y; z; inject_Z r; inject_Z g; inject_Z b] /\
              uint8 r /\ uint8 g /\ uint8 b) points.
Proof.
  apply (points_are_coloured Sample.no_resize Sample.rgb22 Sample.depth22
           1000 1%positive Sample.K0 identity4 None Sample.store).
  - exact sample_frame.
  - repeat constructor; cbn; lia.
Defined.

(** ** The writer: errors, overwriting, and the two functions together *)

Lemma format_loop_step p points acc s :
  (6 <= length p)%nat ->
  format_loop (p :: points) acc s =
  format_loop points (acc ++ [point_line p +:+ LF]) s.
Proof.
  intros Hlen. cbn [format_loop].
  rewrite (bind_ok _ _ _ _ _ (item_run p 0 s ltac:(lia))).
  rewrite (bind_ok _ _ _ _ _ (item_run p 1 s ltac:(lia))).
  rewrite (bind_ok _ _ _ _ _ (item_run p 2 s ltac:(lia))).
  rewrite (bind_ok _ _ _ _ _ (item_run p 3 s ltac:(lia))).
  rewrite (bind_ok _ _ _ _ _ (item_run p 4 s ltac:(lia))).
  rewrite (bind_ok _ _ _ _ _ (item_run p 5 s ltac:(lia))).
  destruct p as [| p0 [| p1 [| p2 [| p3 [| p4 [| p5 rest]]]]]];
    cbn in Hlen; try lia.
  cbn [nth].
  now rewrite (bind_lift _ _ _ _ (point_format_run p0 p1 p2 p3 p4 p5 rest)).
Qed.

Lemma format_loop_short points acc s :
  Exists (fun p => length p < 6)%nat points ->
  format_loop points acc s = (Raise IndexError, s).
Proof.
  intros Hshort. revert acc.
  induction points as [| p points IH]; intros acc; [inversion Hshort |].
  destruct (le_lt_dec 6 (length p)) as [Hlong | Hlt].
  - rewrite (format_loop_step _ _ _ _ Hlong). apply IH.
    inversion Hshort as [? ? Hp | ? ? Hrest]; subst; [lia | exact Hrest].
  - destruct p as [| p0 [| p1 [| p2 [| p3 [| p4 [| p5 rest]]]]]];
      [reflexivity .. | cbn in Hlt; lia].
Qed.

(** X11: a list with a point of fewer than six values makes the writer
    raise IndexError while it formats, before it opens the file: no file
    is created, emptied or changed. *)
Theorem short_point_writes_nothing name points s :
  Exists (fun p => length p < 6)%nat points ->
  write_point_cloud name points s = (Raise IndexError, s).
Proof.
  intros Hshort. unfold write_point_cloud.
  apply bind_raise, format_loop_short, Hshort.
Qed.

Lemma short_point_writes_nothing_witness :
  write_point_cloud "frame.ply" [[1; 0; 1; 255; 255; 255]; [0; 2; 2]]
    Sample.store = (Raise IndexError, Sample.store).
Proof.
  apply (short_point_writes_nothing "frame.ply"
           [[1; 0; 1; 255; 255; 255]; [0; 2; 2]] Sample.store).
  right. left. cbn. lia.
Defined.

(** X12: the writer replaces what the file held: the text it leaves
    under its name does not depend on the store it ran in, every other
    file and every array is as before, and writing the same points again
    changes nothing. *)
Theorem write_point_cloud_overwrites name points s s' :
  Forall (fun p => 6 <= length p)%nat points ->
  let after := snd (write_point_cloud name points s) in
  files after !! name = files (snd (write_point_cloud name points s')) !! name /\
  (forall other, other <> name -> files after !! other = files s !! other) /\
  arrays after = arrays s /\
  write_point_cloud name points after = (Ok tt, after).
Proof.
  intros Hp after. subst after.
  rewrite !(write_point_cloud_run name points _ Hp). cbn [snd files arrays].
  split; [now rewrite !lookup_insert_eq |].
  split; [intros other Hne; now apply lookup_insert_ne |].
  split; [reflexivity |].
  now rewrite insert_insert_eq.
Qed.

Lemma write_point_cloud_overwrites_witness :
  let after := snd (write_point_cloud "frame.ply" Sample.cloud Sample.store) in
  files after !! "frame.ply"%string =
    files (snd (write_point_cloud "frame.ply" Sample.cloud
                  (mkState ∅ {[ "frame.ply"%string := "old"%string ]})))
      !! "frame.ply"%string /\
  (forall other, other <> "frame.ply"%string ->
     files after !! other = files Sample.store !! other) /\
  arrays after = arrays Sample.store /\
  write_point_cloud "frame.ply" Sample.cloud after = (Ok tt, after).
Proof.
  apply (write_point_cloud_overwrites "frame.ply" Sample.cloud Sample.store
           (mkState ∅ {[ "frame.ply"%string := "old"%string ]})).
  repeat constructor.
Defined.

(** X13: on a frame with a positive scale factor, writing what the
    back-projector returns succeeds, and the file has the header, whose
    vertex count is the number of pixels of strictly positive depth, and
    that many lines of points. *)
Theorem cloud_file_counts_positive_depths
    cv2_resize rgb depth scale K Km pose rgb_size name s :
  frame s rgb depth K Km pose -> 0 < scale ->
  exists points text,
    depth_image_to_point_cloud cv2_resize rgb depth scale K pose rgb_size s =
      (Ok points, s) /\
    write_point_cloud name points s =
      (Ok tt, mkState (arrays s) (<[name := text]> (files s))) /\
    content_lines text !! 2%nat =
      Some ("element vertex " +:+ str_int (Z.of_nat (positive_depths depth))) /\
    length (content_lines text) = (11 + positive_depths depth)%nat.
Proof.
  intros Hf Hs. eexists _, _.
  split; [apply (back_projector_run _ _ _ _ _ _ _ _ _ Hf) |].
  split.
  { apply write_point_cloud_run. unfold project. apply Forall_forall.
    intros p Hp. apply list_elem_of_In, in_map_iff in Hp as (q & <- & _).
    rewrite project_pixel_length; [lia | apply Hf]. }
  rewrite content_lines_written.
  assert (Hn : length (project rgb depth scale Km pose) = positive_depths depth).
  { unfold project. rewrite length_map.
    apply survivors_length; [apply Hf | exact Hs]. }
  rewrite Hn. split; [reflexivity |].
  rewrite length_app, length_map, Hn. reflexivity.
Qed.

Lemma cloud_file_counts_positive_depths_witness :
  exists points text,
    depth_image_to_point_cloud Sample.no_resize Sample.rgb22 Sample.depth22
      1000 1%positive identity4 None Sample.store = (Ok points, Sample.store) /\
    write_point_cloud "frame.ply" points Sample.store =
      (Ok tt, mkState (arrays Sample.store)
                (<["frame.ply"%string := text]> (files Sample.store))) /\
    content_lines text !! 2%nat =
      Some ("element vertex " +:+ str_int (Z.of_nat (positive_depths Sample.depth22))) /\
    length (content_lines text) = (11 + positive_depths Sample.depth22)%nat.
Proof.
  apply (cloud_file_counts_positive_depths Sample.no_resize Sample.rgb22
           Sample.depth22 1000 1%positive Sample.K0 identity4 None "frame.ply"
           Sample.store).
  - exact sample_frame.
  - reflexivity.
Defined.


(** ** The rotation of a quaternion *)

Lemma unit_after_division s qx qy qz qw :
  s * s == qx * qx + qy * qy + qz * qz + qw * qw ->
  ~ qx * qx + qy * qy + qz * qz + qw * qw == 0 ->
  ~ s == 0 /\
  (qx / s) * (qx / s) + (qy / s) * (qy / s) + (qz / s) * (qz / s)
    + (qw / s) * (qw / s) == 1.
Proof.
  intros Hs Hn.
  assert (Hs0 : ~ s == 0).
  { intros E. apply Hn. rewrite <- Hs, E. ring. }
  split; [exact Hs0 |].
  assert (Hu : (qx / s) * (qx / s) + (qy / s) * (qy / s) + (qz / s) * (qz / s)
                 + (qw / s) * (qw / s)
               == (qx * qx + qy * qy + qz * qz + qw * qw) / (s * s))
    by (field; exact Hs0).
  rewrite Hu, <- Hs. field. exact Hs0.
Qed.

Lemma rotation_of_unit a b c d :
  a * a + b * b + c * c + d * d == 1 ->
  let R := [ [1 - 2 * b * b - 2 * c * c; 2 * a * b - 2 * c * d; 2 * a * c + 2 * b * d];
             [2 * a * b + 2 * c * d; 1 - 2 * a * a - 2 * c * c; 2 * b * c - 2 * a * d];
             [2 * a * c - 2 * b * d; 2 * b * c + 2 * a * d; 1 - 2 * a * a - 2 * b * b] ] in
  (exists P, npv.dot R (npv.transpose R) = Ok P /\ matrix_eq P identity3) /\
  det3 R == 1.
Proof.
  intros H R.
  assert (H' : d * d == 1 - a * a - b * b - c * c) by (rewrite <- H; ring).
  split.
  - eexists. split; [reflexivity |].
    unfold matrix_eq, identity3.
    cbv - [Qplus Qmult Qminus Qeq].
    repeat constructor; ring [H'].
  - unfold det3, R. ring [H'].
Qed.

(** X14: for a quaternion that is not zero and a root of its squared
    norm that is exact, the matrix returned is a rotation: its product
    with its transpose is the identity and its determinant is 1, as
    rationals. *)
Theorem quaternion_rotation_orthonormal np_sqrt qx qy qz qw :
  np_sqrt (qx * qx + qy * qy + qz * qz + qw * qw) *
    np_sqrt (qx * qx + qy * qy + qz * qz + qw * qw)
    == qx * qx + qy * qy + qz * qz + qw * qw ->
  ~ qx * qx + qy * qy + qz * qz + qw * qw == 0 ->
  (exists P,
     npv.dot (quaternion_to_rotation_matrix np_sqrt qx qy qz qw)
       (npv.transpose (quaternion_to_rotation_matrix np_sqrt qx qy qz qw)) = Ok P /\
     matrix_eq P identity3) /\
  det3 (quaternion_to_rotation_matrix np_sqrt qx qy qz qw) == 1.
Proof.
  intros Hs Hn.
  destruct (unit_after_division _ _ _ _ _ Hs Hn) as [_ Hu].
  exact (rotation_of_unit _ _ _ _ Hu).
Qed.

Lemma quaternion_rotation_orthonormal_witness :
  (exists P,
     npv.dot (quaternion_to_rotation_matrix sqrt_of_square 0 3 0 4)
       (npv.transpose (quaternion_to_rotation_matrix sqrt_of_square 0 3 0 4)) = Ok P /\
     matrix_eq P identity3) /\
  det3 (quaternion_to_rotation_matrix sqrt_of_square 0 3 0 4) == 1.
Proof.
  apply (quaternion_rotation_orthonormal sqrt_of_square 0 3 0 4).
  - reflexivity.
  - discriminate.
Defined.


Lemma rotation_without_root np_sqrt qx qy qz qw :
  np_sqrt (qx * qx + qy * qy + qz * qz + qw * qw) *
    np_sqrt (qx * qx + qy * qy + qz * qz + qw * qw)
    == qx * qx + qy * qy + qz * qz + qw * qw ->
  ~ qx * qx + qy * qy + qz * qz + qw * qw == 0 ->
  matrix_eq (quaternion_to_rotation_matrix np_sqrt qx qy qz qw)
    (rotation_by_norm qx qy qz qw).
Proof.
  intros Hs Hn.
  destruct (unit_after_division _ _ _ _ _ Hs Hn) as [Hs0 _].
  unfold quaternion_to_rotation_matrix, rotation_by_norm, matrix_eq. cbv zeta.
  set (s := np_sqrt _) in *.
  assert (Hn' : ~ s * s == 0) by (rewrite Hs; exact Hn).
  repeat constructor; rewrite <- Hs; field; auto.
Qed.

Lemma matrix_eq_sym a b : matrix_eq a b -> matrix_eq b a.
Proof. unfold matrix_eq. intros H. now symmetry. Qed.

Lemma matrix_eq_trans a b c : matrix_eq a b -> matrix_eq b c -> matrix_eq a c.
Proof. unfold matrix_eq. intros H1 H2. etransitivity; eassumption. Qed.

(** X15: the rotation does not depend on the length of the quaternion:
    a quaternion and its multiple by a factor that is not zero give
    matrices with equal entries, as rationals; both are not zero and both
    roots are exact. *)
Theorem quaternion_scale_invariant np_sqrt k qx qy qz qw :
  np_sqrt (qx * qx + qy * qy + qz * qz + qw * qw) *
    np_sqrt (qx * qx + qy * qy + qz * qz + qw * qw)
    == qx * qx + qy * qy + qz * qz + qw * qw ->
  np_sqrt (k * qx * (k * qx) + k * qy * (k * qy) + k * qz * (k * qz) + k * qw * (k * qw)) *
    np_sqrt (k * qx * (k * qx) + k * qy * (k * qy) + k * qz * (k * qz) + k * qw * (k * qw))
    == k * qx * (k * qx) + k * qy * (k * qy) + k * qz * (k * qz) + k * qw * (k * qw) ->
  ~ qx * qx + qy * qy + qz * qz + qw * qw == 0 ->
  ~ k == 0 ->
  matrix_eq
    (quaternion_to_rotation_matrix np_sqrt (k * qx) (k * qy) (k * qz) (k * qw))
    (quaternion_to_rotation_matrix np_sqrt qx qy qz qw).
Proof.
  intros Hs Hs' Hn Hk.
  assert (Hn' : ~ k * qx * (k * qx) + k * qy * (k * qy) + k * qz * (k * qz)
                  + k * qw * (k * qw) == 0).
  { intros E. apply Hn.
    assert (E' : k * k * (qx * qx + qy * qy + qz * qz + qw * qw) == 0)
      by (rewrite <- E; ring).
    apply Qmult_integral in E' as [E' | E']; [| exact E'].
    apply Qmult_integral in E' as [E' | E']; contradiction. }
  eapply matrix_eq_trans; [apply (rotation_without_root _ _ _ _ _ Hs' Hn') |].
  eapply matrix_eq_trans;
    [| apply matrix_eq_sym, (rotation_without_root _ _ _ _ _ Hs Hn)].
  unfold rotation_by_norm, matrix_eq. cbv zeta.
  repeat constructor; field; auto.
Qed.

Lemma quaternion_scale_invariant_witness :
  matrix_eq
    (quaternion_to_rotation_matrix sqrt_of_square (2 * 0) (2 * 3) (2 * 0) (2 * 4))
    (quaternion_to_rotation_matrix sqrt_of_square 0 3 0 4).
Proof.
  apply (quaternion_scale_invariant sqrt_of_square 2 0 3 0 4).
  - reflexivity.
  - reflexivity.
  - discriminate.
  - discriminate.
Defined.



(** ** The loop over the frames *)

Lemma index_run {A} (l : list A) i x s :
  l !! i = Some x -> index l i s = (Ok x, s).
Proof. intros E. unfold index. now rewrite E. Qed.

Lemma index_raise {A} (l : list A) i s :
  l !! i = None -> index l i s = (@Raise A IndexError, s).
Proof. intros E. unfold index. now rewrite E. Qed.

Lemma project_six rgb depth scale Km pose :
  np.rectangular 4 4 pose ->
  Forall (fun p => 6 <= length p)%nat (project rgb depth scale Km pose).
Proof.
  intros Hpose. unfold project. apply Forall_forall. intros p Hp.
  apply list_elem_of_In, in_map_iff in Hp as (q & <- & _).
  rewrite project_pixel_length; [lia | exact Hpose].
Qed.

Lemma frame_step cv2_resize image_files depth_files imread imread_depth
    ply_path scale K Km poses size i rest s :
  arrays s !! K = Some Km -> np.rectangular 3 3 Km ->
  frame_ready image_files depth_files imread imread_depth poses i ->
  frames_loop cv2_resize image_files depth_files imread imread_depth ply_path
    (i :: rest) scale K poses size s =
  frames_loop cv2_resize image_files depth_files imread imread_depth ply_path
    rest scale K poses size
    (mkState (arrays s)
       (<[frame_file image_files ply_path i :=
            ply_text (frame_cloud image_files depth_files imread imread_depth
                        scale Km poses i)]> (files s))).
Proof.
  intros HK H33 ([f Hf] & [g Hg] & Hworld & Hpose & Hrgb & Hdepth & Hgrid).
  unfold frame_file, frame_cloud, frame_rgb_image, frame_depth_image,
    frame_pose_matrix in *.
  rewrite Hf, Hg in *. cbn [default] in *.
  cbn [frames_loop].
  rewrite (bind_ok _ _ _ _ _ (index_run _ _ _ s Hf)).
  rewrite (bind_ok _ _ _ _ _ (index_run _ _ _ s Hg)).
  assert (Hp : (match poses with
                | inl world => index world i
                | inr eye => ret eye
                end) s =
               (Ok (match poses with
                    | inl world => default [] (world !! i)
                    | inr eye => eye
                    end), s)).
  { destruct poses as [world | eye]; [| reflexivity].
    destruct Hworld as [pose Hw]. rewrite Hw. now apply index_run. }
  rewrite (bind_ok _ _ _ _ _ Hp).
  erewrite bind_ok; cycle 1.
  { apply back_projector_run with (Km := Km). constructor; assumption. }
  erewrite bind_ok; cycle 1.
  { apply write_point_cloud_run, project_six, Hpose. }
  reflexivity.
Qed.

Lemma frames_run cv2_resize image_files depth_files imread imread_depth
    ply_path scale K Km poses size indices s :
  arrays s !! K = Some Km -> np.rectangular 3 3 Km ->
  Forall (frame_ready image_files depth_files imread imread_depth poses) indices ->
  frames_loop cv2_resize image_files depth_files imread imread_depth ply_path
    indices scale K poses size s =
  (Ok tt,
   mkState (arrays s)
     (files_after image_files depth_files imread imread_depth ply_path scale Km
        poses indices (files s))).
Proof.
  intros HK H33 Hready. revert s HK.
  induction Hready as [| i rest Hi _ IH]; intros s HK; [now destruct s |].
  rewrite (frame_step _ _ _ _ _ _ _ _ _ _ _ _ _ _ HK H33 Hi).
  rewrite IH by exact HK. reflexivity.
Qed.


Lemma frames_run_then cv2_resize image_files depth_files imread imread_depth
    ply_path scale K Km poses size done rest s :
  arrays s !! K = Some Km -> np.rectangular 3 3 Km ->
  Forall (frame_ready image_files depth_files imread imread_depth poses) done ->
  frames_loop cv2_resize image_files depth_files imread imread_depth ply_path
    (done ++ rest) scale K poses size s =
  frames_loop cv2_resize image_files depth_files imread imread_depth ply_path
    rest scale K poses size
    (mkState (arrays s)
       (files_after image_files depth_files imread imread_depth ply_path scale
          Km poses done (files s))).
Proof.
  intros HK H33 Hready. revert s HK.
  induction Hready as [| i done Hi _ IH]; intros s HK; [now destruct s |].
  cbn [app]. rewrite (frame_step _ _ _ _ _ _ _ _ _ _ _ _ _ _ HK H33 Hi).
  rewrite IH by exact HK. reflexivity.
Qed.

Section FilesAfter.

Variables (image_files depth_files : list string).
Variable imread : string -> image sample.
Variable imread_depth : string -> image Z.
Variable ply_path : string -> string.
Variables (scale : Q) (Km : matrix) (poses : list matrix + matrix).

Lemma files_after_other indices fs name :
  (forall i, In i indices -> name <> frame_file image_files ply_path i) ->
  files_after image_files depth_files imread imread_depth ply_path scale Km
    poses indices fs !! name = fs !! name.
Proof.
  unfold files_after. revert fs.
  induction indices as [| i rest IH]; intros fs Hname; [reflexivity |].
  cbn [fold_left]. rewrite IH by (intros j Hj; apply Hname; now right).
  apply lookup_insert_ne. intros E. apply (Hname i); [now left | now symmetry].
Qed.

Lemma files_after_frame indices fs i :
  NoDup (map (frame_file image_files ply_path) indices) -> In i indices ->
  files_after image_files depth_files imread imread_depth ply_path scale Km
    poses indices fs !! frame_file image_files ply_path i =
  Some (ply_text (frame_cloud image_files depth_files imread imread_depth
                    scale Km poses i)).
Proof.
  revert fs.
  induction indices as [| j rest IH]; intros fs Hnd Hin; [destruct Hin |].
  cbn [map] in Hnd. apply NoDup_cons in Hnd as [Hj Hnd].
  change (files_after image_files depth_files imread imread_depth ply_path
            scale Km poses (j :: rest) fs)
    with (files_after image_files depth_files imread imread_depth ply_path
            scale Km poses rest
            (<[frame_file image_files ply_path j :=
                 ply_text (frame_cloud image_files depth_files imread
                             imread_depth scale Km poses j)]> fs)).
  destruct (in_dec Nat.eq_dec i rest) as [Hi | Hi]; [now apply IH |].
  destruct Hin as [-> | Hin]; [| contradiction].
  rewrite files_after_other; [apply lookup_insert_eq |].
  intros k Hk E. apply Hj. rewrite E.
  apply list_elem_of_In, in_map. exact Hk.
Qed.

End FilesAfter.

Lemma frame_file_seq image_files ply_path :
  map (frame_file image_files ply_path) (seq 0 (length image_files)) =
  map ply_path image_files.
Proof.
  unfold frame_file. apply list_eq. intros i. rewrite !list_lookup_fmap.
  destruct (image_files !! i) as [f |] eqn:E.
  - rewrite lookup_seq_lt by (eapply lookup_lt_Some; eauto). cbn. now rewrite E.
  - rewrite lookup_seq_ge by (now apply lookup_ge_None). reflexivity.
Qed.

Lemma reshape33_rectangular flat m :
  reshape33 flat = Ok m -> np.rectangular 3 3 m.
Proof.
  unfold reshape33. destruct (decide (length flat = 9%nat)) as [E |]; [| discriminate].
  intros [= <-].
  do 9 (destruct flat as [| ? flat]; [discriminate |]).
  destruct flat; [| discriminate].
  split; [reflexivity | repeat constructor].
Qed.

Lemma build_run cv2_resize K_txt poses_txt image_files depth_files imread
    imread_depth ply_path scale view poses first s :
  length K_txt = 9%nat ->
  read_poses poses_txt view = Ok poses ->
  image_files !! 0%nat = Some first ->
  build_point_cloud cv2_resize K_txt poses_txt image_files depth_files imread
    imread_depth ply_path scale view s =
  frames_loop cv2_resize image_files depth_files imread imread_depth ply_path
    (seq 0 (length image_files)) scale (fresh (dom (arrays s))) poses
    (Z.of_nat (height (imread first)), Z.of_nat (width (imread first)))
    (mkState (<[fresh (dom (arrays s)) := chunks 3 3 K_txt]> (arrays s))
       (files s)).
Proof.
  intros HK Hposes Hfirst. unfold build_point_cloud, reshape33.
  destruct (decide (length K_txt = 9%nat)); [| contradiction].
  rewrite (bind_lift _ _ _ _ eq_refl).
  rewrite (bind_ok (new_array _) _ s _ _ eq_refl).
  erewrite bind_ok; cycle 1.
  { unfold read_poses in Hposes. destruct view.
    - destruct (reshape_poses poses_txt) as [world | err]; [| discriminate].
      injection Hposes as <-. reflexivity.
    - injection Hposes as <-. reflexivity. }
  rewrite (bind_ok _ _ _ _ _ (index_run _ _ _ _ Hfirst)).
  reflexivity.
Qed.

(** X16: when K.txt holds nine numbers, the poses are read, and every
    frame has its two images on one grid and its 4 x 4 pose,
    [build_point_cloud] succeeds; the file of each image then holds the
    cloud of its frame computed with the intrinsics as they were read (K
    is the one array added to the store and it is never altered), and no
    other file is touched.  The paths of the clouds are pairwise
    distinct. *)
Theorem build_point_cloud_every_frame
    cv2_resize K_txt poses_txt image_files depth_files imread imread_depth
    ply_path scale view poses s :
  length K_txt = 9%nat ->
  read_poses poses_txt view = Ok poses ->
  image_files <> [] ->
  NoDup (map ply_path image_files) ->
  Forall (frame_ready image_files depth_files imread imread_depth poses)
    (seq 0 (length image_files)) ->
  exists K s',
    build_point_cloud cv2_resize K_txt poses_txt image_files depth_files imread
      imread_depth ply_path scale view s = (Ok tt, s') /\
    arrays s !! K = None /\
    arrays s' = <[K := chunks 3 3 K_txt]> (arrays s) /\
    (forall i, (i < length image_files)%nat ->
       files s' !! frame_file image_files ply_path i =
         Some (ply_text (frame_cloud image_files depth_files imread imread_depth
                           scale (chunks 3 3 K_txt) poses i))) /\
    (forall name, (forall f, In f image_files -> name <> ply_path f) ->
       files s' !! name = files s !! name).
Proof.
  intros HK Hposes Hne Hnd Hready.
  destruct image_files as [| first others] eqn:Eimg; [contradiction |].
  rewrite <- Eimg in *.
  assert (Hfirst : image_files !! 0%nat = Some first) by now rewrite Eimg.
  eexists _, _. split.
  { rewrite (build_run _ _ _ _ _ _ _ _ _ _ _ _ _ HK Hposes Hfirst).
    apply frames_run with (Km := chunks 3 3 K_txt); [| | exact Hready].
    - cbn [arrays]. apply lookup_insert_eq.
    - apply (reshape33_rectangular K_txt). unfold reshape33.
      destruct (decide (length K_txt = 9%nat)); [reflexivity | contradiction]. }
  cbn [arrays files].
  split; [apply fresh_loc_dead |]. split; [reflexivity |]. split.
  - intros i Hi. apply files_after_frame.
    + now rewrite frame_file_seq.
    + apply in_seq. lia.
  - intros name Hname. apply files_after_other.
    intros i Hi E. apply in_seq in Hi as [_ Hi]. cbn in Hi.
    apply lookup_lt_is_Some in Hi as [f Hf].
    apply (Hname f).
    + apply list_elem_of_In. eapply list_elem_of_lookup_2; eauto.
    + rewrite E. unfold frame_file. now rewrite Hf.
Qed.

Lemma sample_frames_ready n :
  (n <= 2)%nat ->
  Forall (frame_ready Sample.images Sample.images Sample.decoded_rgb
            Sample.decoded_depth (inr identity4)) (seq 0 n).
Proof.
  intros Hn. apply Forall_forall. intros i Hi.
  apply list_elem_of_In, in_seq in Hi.
  assert (Hi2 : (i < 2)%nat) by lia.
  unfold frame_ready, frame_rgb_image, frame_depth_image, frame_pose_matrix,
    Sample.decoded_rgb, Sample.decoded_depth.
  repeat split; try reflexivity; try (repeat constructor);
    now apply lookup_lt_is_Some.
Qed.

Lemma sample_paths_distinct : NoDup (map Sample.cloud_path Sample.images).
Proof.
  apply NoDup_cons. split; [| apply NoDup_singleton].
  intros Hin. apply list_elem_of_singleton in Hin. discriminate.
Qed.

Lemma build_point_cloud_every_frame_witness :
  exists K s',
    build_point_cloud Sample.no_resize Sample.K_txt [] Sample.images
      Sample.images Sample.decoded_rgb Sample.decoded_depth Sample.cloud_path
      1000 false (mkState ∅ ∅) = (Ok tt, s') /\
    arrays (mkState ∅ ∅) !! K = None /\
    arrays s' = <[K := chunks 3 3 Sample.K_txt]> (arrays (mkState ∅ ∅)) /\
    (forall i, (i < length Sample.images)%nat ->
       files s' !! frame_file Sample.images Sample.cloud_path i =
         Some (ply_text (frame_cloud Sample.images Sample.images
                           Sample.decoded_rgb Sample.decoded_depth 1000
                           (chunks 3 3 Sample.K_txt) (inr identity4) i))) /\
    (forall name, (forall f, In f Sample.images -> name <> Sample.cloud_path f) ->
       files s' !! name = files (mkState ∅ ∅) !! name).
Proof.
  apply (build_point_cloud_every_frame Sample.no_resize Sample.K_txt []
           Sample.images Sample.images Sample.decoded_rgb Sample.decoded_depth
           Sample.cloud_path 1000 false (inr identity4) (mkState ∅ ∅)).
  - reflexivity.
  - reflexivity.
  - discriminate.
  - exact sample_paths_distinct.
  - apply (sample_frames_ready 2). lia.
Defined.

(** X17: when there are fewer depth files than image files, the frames
    that have both are processed and written, and the first frame
    without a depth file makes [build_point_cloud] raise IndexError: the
    clouds of the earlier frames stay on disk and no other file is
    touched. *)
Theorem build_point_cloud_missing_depth
    cv2_resize K_txt poses_txt image_files depth_files imread imread_depth
    ply_path scale view poses s :
  length K_txt = 9%nat ->
  read_poses poses_txt view = Ok poses ->
  (length depth_files < length image_files)%nat ->
  NoDup (map ply_path image_files) ->
  Forall (frame_ready image_files depth_files imread imread_depth poses)
    (seq 0 (length depth_files)) ->
  exists s',
    build_point_cloud cv2_resize K_txt poses_txt image_files depth_files imread
      imread_depth ply_path scale view s = (Raise IndexError, s') /\
    (forall i, (i < length depth_files)%nat ->
       files s' !! frame_file image_files ply_path i =
         Some (ply_text (frame_cloud image_files depth_files imread imread_depth
                           scale (chunks 3 3 K_txt) poses i))) /\
    (forall name, (forall f, In f image_files -> name <> ply_path f) ->
       files s' !! name = files s !! name).
Proof.
  intros HK Hposes Hlt Hnd Hready.
  set (m := length depth_files) in *. set (n := length image_files) in *.
  assert (Hfirst : exists first, image_files !! 0%nat = Some first).
  { apply lookup_lt_is_Some. fold n. lia. }
  destruct Hfirst as [first Hfirst].
  assert (Hm : exists f, image_files !! m = Some f).
  { apply lookup_lt_is_Some. fold n. lia. }
  destruct Hm as [fm Hfm].
  assert (Hseq : seq 0 n = seq 0 m ++ m :: seq (S m) (n - S m)).
  { replace n with (m + S (n - S m))%nat at 1 by lia.
    rewrite seq_app. reflexivity. }
  assert (Hnd' : NoDup (map (frame_file image_files ply_path) (seq 0 m))).
  { rewrite <- frame_file_seq in Hnd. fold n in Hnd.
    rewrite Hseq, map_app in Hnd. now apply NoDup_app in Hnd as [Hnd _]. }
  eexists. split.
  { rewrite (build_run _ _ _ _ _ _ _ _ _ _ _ _ _ HK Hposes Hfirst).
    fold n. rewrite Hseq.
    rewrite frames_run_then with (Km := chunks 3 3 K_txt); [| | | exact Hready].
    - cbn [frames_loop].
      rewrite (bind_ok _ _ _ _ _ (index_run _ _ _ _ Hfm)).
      apply bind_raise, index_raise, lookup_ge_None. fold m. lia.
    - cbn [arrays]. apply lookup_insert_eq.
    - apply (reshape33_rectangular K_txt). unfold reshape33.
      destruct (decide (length K_txt = 9%nat)); [reflexivity | contradiction]. }
  cbn [arrays files]. split.
  - intros i Hi. apply files_after_frame; [exact Hnd' | apply in_seq; lia].
  - intros name Hname. apply files_after_other.
    intros i Hi E. apply in_seq in Hi as [_ Hi]. cbn in Hi.
    assert (Hi' : (i < n)%nat) by lia.
    apply lookup_lt_is_Some in Hi' as [f Hf].
    apply (Hname f).
    + apply list_elem_of_In. eapply list_elem_of_lookup_2; eauto.
    + rewrite E. unfold frame_file. now rewrite Hf.
Qed.

Lemma build_point_cloud_missing_depth_witness :
  exists s',
    build_point_cloud Sample.no_resize Sample.K_txt [] Sample.images
      ["000000.png"%string] Sample.decoded_rgb Sample.decoded_depth
      Sample.cloud_path 1000 false (mkState ∅ ∅) = (Raise IndexError, s') /\
    (forall i, (i < length ["000000.png"%string])%nat ->
       files s' !! frame_file Sample.images Sample.cloud_path i =
         Some (ply_text (frame_cloud Sample.images ["000000.png"%string]
                           Sample.decoded_rgb Sample.decoded_depth 1000
                           (chunks 3 3 Sample.K_txt) (inr identity4) i))) /\
    (forall name, (forall f, In f Sample.images -> name <> Sample.cloud_path f) ->
       files s' !! name = files (mkState ∅ ∅) !! name).
Proof.
  apply (build_point_cloud_missing_depth Sample.no_resize Sample.K_txt []
           Sample.images ["000000.png"%string] Sample.decoded_rgb
           Sample.decoded_depth Sample.cloud_path 1000 false (inr identity4)
           (mkState ∅ ∅)).
  - reflexivity.
  - reflexivity.
  - cbn. lia.
  - exact sample_paths_distinct.
  - repeat constructor; try reflexivity; now eexists.
Defined.

(** X18: [build_point_cloud] stops before it writes anything when K.txt
    does not hold nine numbers (ValueError), when world coordinates are
    asked for and poses.txt does not hold a multiple of sixteen numbers
    (ValueError), and when there is no image file (IndexError). *)
Theorem build_point_cloud_rejects_early
    cv2_resize K_txt poses_txt image_files depth_files imread imread_depth
    ply_path scale view s :
  (length K_txt <> 9%nat ->
   build_point_cloud cv2_resize K_txt poses_txt image_files depth_files imread
     imread_depth ply_path scale view s = (Raise ValueError, s)) /\
  (length K_txt = 9%nat -> view = true ->
   (length poses_txt mod 16 <> 0)%nat ->
   exists s',
     build_point_cloud cv2_resize K_txt poses_txt image_files depth_files
       imread imread_depth ply_path scale view s = (Raise ValueError, s') /\
     files s' = files s) /\
  (length K_txt = 9%nat ->
   view = false \/ (length poses_txt mod 16 = 0)%nat ->
   image_files = [] ->
   exists s',
     build_point_cloud cv2_resize K_txt poses_txt image_files depth_files
       imread imread_depth ply_path scale view s = (Raise IndexError, s') /\
     files s' = files s).
Proof.
  unfold build_point_cloud, reshape33, reshape_poses.
  split; [| split].
  - intros HK. destruct (decide (length K_txt = 9%nat)); [contradiction | reflexivity].
  - intros HK -> Hp. destruct (decide (length K_txt = 9%nat)); [| contradiction].
    destruct (decide (length poses_txt mod 16 = 0)%nat); [contradiction |].
    eexists. split; reflexivity.
  - intros HK Hp ->. destruct (decide (length K_txt = 9%nat)); [| contradiction].
    destruct Hp as [-> | Hp].
    + eexists. split; reflexivity.
    + destruct view; [| eexists; split; reflexivity].
      destruct (decide (length poses_txt mod 16 = 0)%nat); [| contradiction].
      eexists. split; reflexivity.
Qed.
